(** * Opinion Builder: the topic cache and the websocket consumer

    A shallow embedding of
      - [opinion_builder/models/topic.py]           (the [Topic] model),
      - [opinion_builder/models/websocket.py]       (the stream messages),
      - [opinion_builder/services/cache_service.py] ([CacheService]),
      - [opinion_builder/websocket/consumer.py]     ([OpinionWebSocketConsumer]),
    followed by the properties of the design document that concern them.

    Modelling conventions.
      - Python [int] is [Z]; [str] is [string] (a byte string: [lower] and
        [split] act on the ASCII range and leave other bytes alone).
      - Python objects live in a heap: a [Topic] held by the cache, by a list
        returned from it or by a caller is a reference ([loc]) into one
        shared [heap], so that in-place mutation is seen through every alias.
      - [OrderedDict] is an association list in insertion order with unique
        keys; [dict[str, set[int]]] is a [gmap string (gset Z)].
      - [datetime.now()] is an explicit argument [now].
      - The websocket transport ([websocket.WebSocketApp]) is an external
        library: what it delivers to the callbacks during one [run_forever]
        is an input (a list of callback events). *)

From stdpp Require Import base option list gmap strings.
From Stdlib Require Import ZArith Lia Ascii.

Local Open Scope string_scope.
Local Open Scope Z_scope.

(** ** Python strings *)

Module Str.

(** [str.lower()], on the ASCII range. *)
Definition lower_ascii (a : ascii) : ascii :=
  let n := nat_of_ascii a in
  if ((65 <=? n) && (n <=? 90))%nat then ascii_of_nat (n + 32) else a.

Fixpoint lower (s : string) : string :=
  match s with
  | EmptyString => EmptyString
  | String a r => String (lower_ascii a) (lower r)
  end.

(** [needle in hay]: substring test. *)
Fixpoint contains (needle hay : string) : bool :=
  String.prefix needle hay
  || match hay with
     | EmptyString => false
     | String _ hay' => contains needle hay'
     end.

(** [str.isspace()] of one character, on the ASCII range:
    TAB, LF, VT, FF, CR, FS, GS, RS, US and the space. *)
Definition isspace (a : ascii) : bool :=
  let n := nat_of_ascii a in
  ((9 <=? n) && (n <=? 13) || (28 <=? n) && (n <=? 32))%nat.

(** [str.split()] without argument: the maximal runs of characters that
    are not whitespace. [cur] is the run being read, reversed. *)
Fixpoint split_go (cur : list ascii) (s : string) : list string :=
  let flush := match cur with
               | [] => []
               | _ => [String.string_of_list_ascii (rev cur)]
               end in
  match s with
  | EmptyString => flush
  | String a r =>
      if isspace a then flush ++ split_go [] r else split_go (a :: cur) r
  end.

Definition split (s : string) : list string := split_go [] s.

(** Truthiness of a [str]: the empty string is falsy. *)
Definition truthy (s : string) : bool :=
  match s with EmptyString => false | _ => true end.

End Str.

(** ** Exceptions *)

Inductive exn := KeyError.

Inductive result (A : Type) :=
  | Ok (a : A)
  | Raise (e : exn).
Arguments Ok {A} a.
Arguments Raise {A} e.

Global Instance result_ret : MRet result := fun _ a => Ok a.

Global Instance result_bind : MBind result := fun _ _ k r =>
  match r with
  | Ok a => k a
  | Raise e => Raise e
  end.

(** ** models/topic.py *)

Definition datetime := Z.

(** [decimal.Decimal]: coefficient and exponent. *)
Definition Decimal := (Z * Z)%type.

Module Topic.

Record t := mk {
  id : string;
  market_id : Z;
  question : string;
  description : option string;
  end_date : option datetime;
  outcome_type : string;
  volume : option Decimal;
  last_price : option string;
  yes_price : option string;
  no_price : option string;
  liquidity : option string;
  created_at : option datetime;
  updated_at : option datetime;
  categories : option (list string);
  slug : option string
}.

(** Attribute assignment [topic.f = v]. *)
Definition set_last_price (v : option string) (x : t) : t :=
  mk (id x) (market_id x) (question x) (description x) (end_date x)
     (outcome_type x) (volume x) v (yes_price x) (no_price x)
     (liquidity x) (created_at x) (updated_at x) (categories x) (slug x).

Definition set_yes_price (v : option string) (x : t) : t :=
  mk (id x) (market_id x) (question x) (description x) (end_date x)
     (outcome_type x) (volume x) (last_price x) v (no_price x)
     (liquidity x) (created_at x) (updated_at x) (categories x) (slug x).

Definition set_no_price (v : option string) (x : t) : t :=
  mk (id x) (market_id x) (question x) (description x) (end_date x)
     (outcome_type x) (volume x) (last_price x) (yes_price x) v
     (liquidity x) (created_at x) (updated_at x) (categories x) (slug x).

Definition set_updated_at (v : option datetime) (x : t) : t :=
  mk (id x) (market_id x) (question x) (description x) (end_date x)
     (outcome_type x) (volume x) (last_price x) (yes_price x) (no_price x)
     (liquidity x) (created_at x) v (categories x) (slug x).

End Topic.

(** ** The object heap

    A reference to a [Topic] object is a location; the heap gives the
    object's current attribute values. *)

Definition loc := nat.
Definition heap := loc -> Topic.t.

(** In-place mutation of the object at [l]. *)
Definition mutate (l : loc) (f : Topic.t -> Topic.t) (h : heap) : heap :=
  fun l' => if decide (l' = l) then f (h l') else h l'.

(** ** collections.OrderedDict[int, Topic] *)

Module OrderedDict.

Definition t := list (Z * loc).

Definition empty : t := [].

Definition len (d : t) : Z := Z.of_nat (length d).

Definition keys (d : t) : list Z := map fst d.

Definition values (d : t) : list loc := map snd d.

(** [d.get(k)] *)
Fixpoint get (k : Z) (d : t) : option loc :=
  match d with
  | [] => None
  | (k', v) :: r => if k' =? k then Some v else get k r
  end.

(** [k in d] *)
Definition mem (k : Z) (d : t) : bool :=
  match get k d with Some _ => true | None => false end.

(** [del d[k]]; raises [KeyError] when [k] is absent. *)
Fixpoint remove (k : Z) (d : t) : t :=
  match d with
  | [] => []
  | (k', v) :: r => if k' =? k then r else (k', v) :: remove k r
  end.

Definition delitem (k : Z) (d : t) : result t :=
  if mem k d then Ok (remove k d) else Raise KeyError.

(** [d[k] = v]: an existing key keeps its position, a new key goes to
    the end. *)
Fixpoint setitem (k : Z) (v : loc) (d : t) : t :=
  match d with
  | [] => [(k, v)]
  | (k', v') :: r =>
      if k' =? k then (k', v) :: r else (k', v') :: setitem k v r
  end.

(** [d.popitem(last=False)]: removes and returns the first pair; raises
    [KeyError] on an empty dictionary. *)
Definition popitem_first (d : t) : result ((Z * loc) * t) :=
  match d with
  | [] => Raise KeyError
  | kv :: r => Ok (kv, r)
  end.

End OrderedDict.

(** ** config.py *)

Module Settings.

Record t := mk {
  opinion_ws_api_key : string;
  opinion_ws_url : string;
  opinion_ws_heartbeat_interval : Z;
  cache_max_size : Z
}.

(** The defaults of the class [Settings]. *)
Definition default : t :=
  mk "" "wss://ws.opinion.trade" 30 10000.

End Settings.

(** ** models/websocket.py *)

Inductive MessageType := DEPTH_DIFF | LAST_PRICE | LAST_TRADE.

Module DepthDiffMessage.
Record t := mk {
  market_id : Z;
  token_id : string;
  outcome_side : Z;
  side : string;
  price : string;
  size : string;
  msg_type : MessageType
}.
End DepthDiffMessage.

Module LastPriceMessage.
Record t := mk {
  market_id : Z;
  token_id : string;
  outcome_side : Z;
  price : string;
  msg_type : MessageType
}.
End LastPriceMessage.

Module LastTradeMessage.
Record t := mk {
  market_id : Z;
  token_id : string;
  outcome_side : Z;
  side : string;
  price : string;
  shares : string;
  amount : string;
  msg_type : MessageType
}.
End LastTradeMessage.

(** [DepthDiffMessage | LastPriceMessage | LastTradeMessage]; [isinstance]
    is a match on the constructor. *)
Inductive ws_message :=
  | DepthDiff (m : DepthDiffMessage.t)
  | LastPrice (m : LastPriceMessage.t)
  | LastTrade (m : LastTradeMessage.t).

(** [message.market_id], an attribute all three classes have. *)
Definition message_market_id (message : ws_message) : Z :=
  match message with
  | DepthDiff m => DepthDiffMessage.market_id m
  | LastPrice m => LastPriceMessage.market_id m
  | LastTrade m => LastTradeMessage.market_id m
  end.

(** ** services/cache_service.py *)

Module CacheService.

Record t := mk {
  _topics : OrderedDict.t;
  _max_size : Z;
  _search_index : gmap string (gset Z)
}.

(** [__init__]: [max_size or settings.cache_max_size]. *)
Definition init (settings : Settings.t) (max_size : Z) : t :=
  mk OrderedDict.empty
     (if max_size =? 0 then Settings.cache_max_size settings else max_size)
     ∅.

(** [_update_search_index] *)
Definition words_of (s : string) : gset string :=
  list_to_set (Str.split (Str.lower s)).

Definition _update_search_index (h : heap) (topic : loc)
    (index : gmap string (gset Z)) : gmap string (gset Z) :=
  let x := h topic in
  let words := words_of (Topic.question x) in
  let words :=
    match Topic.description x with
    | Some d => if Str.truthy d then words ∪ words_of d else words
    | None => words
    end in
  let words :=
    fold_left (fun ws category => ws ∪ words_of category)
              (default [] (Topic.categories x)) words in
  set_fold
    (fun word index =>
       let index :=
         match index !! word with
         | None => <[word := ∅]> index
         | Some _ => index
         end in
       <[word := default ∅ (index !! word) ∪ {[Topic.market_id x]}]> index)
    index words.

(** [get_topic] *)
Definition get_topic (self : t) (market_id : Z) : option loc :=
  OrderedDict.get market_id (_topics self).

(** [set_topic] *)
Definition set_topic (h : heap) (topic : loc) (self : t) : result t :=
  let market_id := Topic.market_id (h topic) in
  topics ← (if OrderedDict.mem market_id (_topics self)
            then OrderedDict.delitem market_id (_topics self)
            else Ok (_topics self));
  let topics := OrderedDict.setitem market_id topic topics in
  let index := _update_search_index h topic (_search_index self) in
  if OrderedDict.len topics >? _max_size self then
    popped ← OrderedDict.popitem_first topics;
    Ok (mk (snd popped) (_max_size self) index)
  else Ok (mk topics (_max_size self) index).

(** [get_all_topics]: [list(self._topics.values())], a new list of the
    same object references. *)
Definition get_all_topics (self : t) : list loc :=
  OrderedDict.values (_topics self).

(** [get_topic_count] *)
Definition get_topic_count (self : t) : Z :=
  OrderedDict.len (_topics self).

(** The two branches on [outcome_side] shared by [update_price] and
    [update_from_ws_message]. *)
Definition assign_prices (topic : loc) (outcome_side : Z) (price : string)
    (h : heap) : heap :=
  if outcome_side =? 1 then
    mutate topic (Topic.set_last_price (Some price))
      (mutate topic (Topic.set_yes_price (Some price)) h)
  else if outcome_side =? 2 then
    mutate topic (Topic.set_no_price (Some price)) h
  else h.

(** [update_price]. A [Topic] object is truthy, so [if topic:] is the
    test that the key was found. *)
Definition update_price (self : t) (market_id outcome_side : Z)
    (price : string) (now : datetime) (h : heap) : heap :=
  match OrderedDict.get market_id (_topics self) with
  | Some topic =>
      let h := assign_prices topic outcome_side price h in
      mutate topic (Topic.set_updated_at (Some now)) h
  | None => h
  end.

(** [update_from_ws_message] *)
Definition update_from_ws_message (self : t) (message : ws_message)
    (now : datetime) (h : heap) : heap :=
  match OrderedDict.get (message_market_id message) (_topics self) with
  | None => h
  | Some topic =>
      let h := mutate topic (Topic.set_updated_at (Some now)) h in
      match message with
      | LastPrice m =>
          assign_prices topic (LastPriceMessage.outcome_side m)
                        (LastPriceMessage.price m) h
      | LastTrade m =>
          assign_prices topic (LastTradeMessage.outcome_side m)
                        (LastTradeMessage.price m) h
      | DepthDiff _ => h
      end
  end.

(** The test of the loop of [search]. *)
Definition search_match (query_lower : string) (x : Topic.t) : bool :=
  Str.contains query_lower (Str.lower (Topic.question x))
  || match Topic.description x with
     | Some d => Str.truthy d && Str.contains query_lower (Str.lower d)
     | None => false
     end
  || existsb (fun cat => Str.contains query_lower (Str.lower cat))
             (default [] (Topic.categories x)).

(** The loop of [search] over the remaining values. Besides [results] it
    returns how many topics the loop has visited, [break] included. *)
Fixpoint search_loop (h : heap) (query_lower : string) (limit : Z)
    (values : list loc) (results : list loc) (visited : nat)
    : list loc * nat :=
  match values with
  | [] => (results, visited)
  | topic :: rest =>
      if search_match query_lower (h topic) then
        let results := (results ++ [topic])%list in
        if Z.of_nat (length results) >=? limit
        then (results, S visited)
        else search_loop h query_lower limit rest results (S visited)
      else search_loop h query_lower limit rest results (S visited)
  end.

(** [search] *)
Definition search (self : t) (h : heap) (query : string) (limit : Z)
    : list loc :=
  fst (search_loop h (Str.lower query) limit
                   (OrderedDict.values (_topics self)) [] 0).

(** Number of topics one call of [search] visits. *)
Definition search_visited (self : t) (h : heap) (query : string)
    (limit : Z) : nat :=
  snd (search_loop h (Str.lower query) limit
                   (OrderedDict.values (_topics self)) [] 0).

(** [initialize_topics] *)
Definition initialize_topics (h : heap) (topics : list loc) (self : t) : t :=
  fold_left
    (fun self topic =>
       mk (OrderedDict.setitem (Topic.market_id (h topic)) topic
                               (_topics self))
          (_max_size self)
          (_update_search_index h topic (_search_index self)))
    topics self.

End CacheService.

(** ** JSON objects handed to [json.dumps]

    A frame is the dictionary that is serialised, with its keys in
    insertion order. *)

Inductive json :=
  | JString (s : string)
  | JInt (n : Z).

Definition frame := list (string * json).

Module WebSocketSubscribeMessage.

Record t := mk {
  action : string;
  channel : string;
  market_id : option Z;
  root_market_id : option Z
}.

(** [to_json] *)
Definition to_json (self : t) : frame :=
  let data := [("action", JString (action self));
               ("channel", JString (channel self))] in
  let data := match market_id self with
              | Some m => (data ++ [("marketId", JInt m)])%list
              | None => data
              end in
  let data := match root_market_id self with
              | Some m => (data ++ [("rootMarketId", JInt m)])%list
              | None => data
              end in
  data.

End WebSocketSubscribeMessage.

(** ** websocket/consumer.py *)

(** [websocket.WebSocketApp(ws_url, ...)] *)
Record WebSocketApp := { ws_url : string }.

(** The coroutines handed to [asyncio.create_task]. *)
Inductive task :=
  | handle_message_task (message : string)
  | subscribe_all_markets_task
  | heartbeat_loop_task.

(** What the consumer does to the outside, in program order. *)
Inductive effect :=
  | Send (f : frame)        (* self._ws.send(json) *)
  | Sleep (seconds : Z)     (* await asyncio.sleep(seconds) *)
  | CreateTask (c : task).  (* asyncio.create_task(c) *)

(** The callbacks the transport invokes during one [run_forever]. *)
Inductive callback :=
  | on_open
  | on_message (message : string)
  | on_error
  | on_close.

(** One call of [run_forever], as the transport library decides it: the
    callbacks it invokes, in order, until the connection has ended, and
    whether the awaited call then raises instead of returning. *)
Record transport := { events : list callback; raises : bool }.

Module Consumer.

Record t := mk {
  api_key : string;
  url : string;
  heartbeat_interval : Z;
  _ws : option WebSocketApp;
  _running : bool;
  _heartbeat_task : option task;
  _reconnect_delay : Z;
  _max_reconnect_delay : Z
}.

Definition set_ws (v : option WebSocketApp) (c : t) : t :=
  mk (api_key c) (url c) (heartbeat_interval c) v (_running c)
     (_heartbeat_task c) (_reconnect_delay c) (_max_reconnect_delay c).

Definition set_running (v : bool) (c : t) : t :=
  mk (api_key c) (url c) (heartbeat_interval c) (_ws c) v
     (_heartbeat_task c) (_reconnect_delay c) (_max_reconnect_delay c).

Definition set_heartbeat_task (v : option task) (c : t) : t :=
  mk (api_key c) (url c) (heartbeat_interval c) (_ws c) (_running c)
     v (_reconnect_delay c) (_max_reconnect_delay c).

Definition set_reconnect_delay (v : Z) (c : t) : t :=
  mk (api_key c) (url c) (heartbeat_interval c) (_ws c) (_running c)
     (_heartbeat_task c) v (_max_reconnect_delay c).

(** [x or y] on [str | None] and on [int | None]. *)
Definition str_or (x : option string) (y : string) : string :=
  match x with
  | Some s => if Str.truthy s then s else y
  | None => y
  end.

Definition int_or (x : option Z) (y : Z) : Z :=
  match x with
  | Some n => if n =? 0 then y else n
  | None => y
  end.

(** [__init__] *)
Definition init (settings : Settings.t) (api_key url : option string)
    (heartbeat_interval : option Z) : t :=
  mk (str_or api_key (Settings.opinion_ws_api_key settings))
     (str_or url (Settings.opinion_ws_url settings))
     (int_or heartbeat_interval
             (Settings.opinion_ws_heartbeat_interval settings))
     None false None 5 60.

(** [is_connected] *)
Definition is_connected (self : t) : bool :=
  bool_decide (_ws self <> None) && _running self.

(** The closures [on_message], [on_error], [on_close] and [on_open] of
    [_connect]. *)
Definition run_callback (self : t) (cb : callback) : t * list effect :=
  match cb with
  | on_message message => (self, [CreateTask (handle_message_task message)])
  | on_error => (self, [])
  | on_close => (set_running false self, [])
  | on_open => (set_running true self, [CreateTask subscribe_all_markets_task])
  end.

(** [self._ws.run_forever()]: the callbacks run one after the other. *)
Fixpoint run_forever (self : t) (cbs : list callback) : t * list effect :=
  match cbs with
  | [] => (self, [])
  | cb :: rest =>
      let '(self, e1) := run_callback self cb in
      let '(self, e2) := run_forever self rest in
      (self, (e1 ++ e2)%list)
  end.

(** [_connect]. The result carries the consumer, what it did, and
    whether the call raised. *)
Definition _connect (self : t) (tr : transport) : t * list effect * bool :=
  let ws_url := url self +:+ "?apikey=" +:+ api_key self in
  let self := set_ws (Some {| ws_url := ws_url |}) self in
  (* await asyncio.to_thread(self._ws.run_forever) *)
  let '(self, e) := run_forever self (events tr) in
  if raises tr then (self, e, true)
  else
    (* Start heartbeat after connection *)
    let self := set_heartbeat_task (Some heartbeat_loop_task) self in
    (self, (e ++ [CreateTask heartbeat_loop_task])%list, false).

(** [_connect_with_retry]: one transport behaviour per call of
    [_connect]; the loop is cut when the list is used up. *)
Fixpoint _connect_with_retry (self : t) (attempts : list transport)
    : t * list effect :=
  match attempts with
  | [] => (self, [])
  | tr :: rest =>
      if _running self then
        let '(self, e1, raised) := _connect self tr in
        if raised then
          if _running self then
            let e2 := [Sleep (_reconnect_delay self)] in
            let self :=
              set_reconnect_delay
                (Z.min (_reconnect_delay self * 2)
                       (_max_reconnect_delay self)) self in
            let '(self, e3) := _connect_with_retry self rest in
            (self, (e1 ++ e2 ++ e3)%list)
          else
            let '(self, e3) := _connect_with_retry self rest in
            (self, (e1 ++ e3)%list)
        else
          let self := set_reconnect_delay 5 self in  (* Reset on success *)
          let '(self, e3) := _connect_with_retry self rest in
          (self, (e1 ++ e3)%list)
      else (self, [])
  end.

(** [start] *)
Definition start (self : t) (attempts : list transport) : t * list effect :=
  _connect_with_retry (set_running true self) attempts.

(** [_subscribe_market]: the frames passed to [self._ws.send]. *)
Definition _subscribe_market (self : t) (market_id : Z)
    (outcome_type : string) : list effect :=
  match _ws self with
  | None => []
  | Some _ =>
      let msg :=
        if String.eqb outcome_type "categorical" then
          WebSocketSubscribeMessage.mk
            "SUBSCRIBE" "market.last.price" None (Some market_id)
        else
          WebSocketSubscribeMessage.mk
            "SUBSCRIBE" "market.last.price" (Some market_id) None in
      let e1 := [Send (WebSocketSubscribeMessage.to_json msg)] in
      if negb (String.eqb outcome_type "categorical") then
        let depth_msg :=
          WebSocketSubscribeMessage.mk
            "SUBSCRIBE" "market.depth.diff" (Some market_id) None in
        let trade_msg :=
          WebSocketSubscribeMessage.mk
            "SUBSCRIBE" "market.last.trade" (Some market_id) None in
        (e1 ++ [Send (WebSocketSubscribeMessage.to_json depth_msg);
                Send (WebSocketSubscribeMessage.to_json trade_msg)])%list
      else e1
  end.

(** [_subscribe_all_markets] *)
Definition _subscribe_all_markets (self : t) (cache : CacheService.t)
    (h : heap) : list effect :=
  flat_map
    (fun topic =>
       _subscribe_market self (Topic.market_id (h topic))
                         (Topic.outcome_type (h topic)))
    (CacheService.get_all_topics cache).

(** The heartbeat frame. *)
Definition heartbeat_frame : frame := [("action", JString "HEARTBEAT")].

(** [_heartbeat_loop]. The loop reads the shared consumer at every test
    of its condition, and other tasks run while it sleeps: [observed]
    lists, turn after turn, the consumer as the test finds it and whether
    [self._ws.send] then raises. A send that raises delivers no frame and
    is caught by [except Exception], which leaves the loop without
    sleeping. A cancellation during the sleep ends the task: the list
    ends there. *)
Fixpoint _heartbeat_loop (observed : list (t * bool)) : list effect :=
  match observed with
  | [] => []
  | (self, send_raises) :: later =>
      if _running self && bool_decide (_ws self <> None) then
        if send_raises then []
        else
          Send heartbeat_frame :: Sleep (heartbeat_interval self)
            :: _heartbeat_loop later
      else []
  end.

End Consumer.

(** ** Sequences of calls, and the data of the examples *)

(** [for topic in topics: await cache.set_topic(topic)] *)
Fixpoint set_topics (h : heap) (topics : list loc) (self : CacheService.t)
    : result CacheService.t :=
  match topics with
  | [] => Ok self
  | topic :: rest =>
      self ← CacheService.set_topic h topic self;
      set_topics h rest self
  end.

(** The dictionary [set_topic] leaves in [self._topics]. *)
Definition topics_after_set (max_size market_id : Z) (topic : loc)
    (d : OrderedDict.t) : OrderedDict.t :=
  let d := if OrderedDict.mem market_id d
           then OrderedDict.remove market_id d else d in
  let d := OrderedDict.setitem market_id topic d in
  if OrderedDict.len d >? max_size then tl d else d.

Definition example_topic (market_id : Z) (question outcome_type : string)
    : Topic.t :=
  Topic.mk "t" market_id question (Some "") None outcome_type None
           (Some "0.10") (Some "0.20") (Some "0.80") None None (Some 100)
           (Some ["Politics"; "World News"]) None.

(** Three objects: markets 7, 9 and 42. *)
Definition example_heap : heap :=
  fun l =>
    match l with
    | 0%nat => example_topic 7 "Who wins the ELECTION?" "categorical"
    | 1%nat => example_topic 9 "Will it rain tomorrow?" "binary"
    | _ => example_topic 42 "Is the election postponed?" "scalar"
    end.

Definition example_cache : CacheService.t :=
  CacheService.initialize_topics example_heap [0; 1; 2]%nat
    (CacheService.init Settings.default 10).

(** The public mutating operations of the store, as one call each. *)
Inductive mutation :=
  | SetTopic (topic : loc)
  | UpdatePrice (market_id outcome_side : Z) (price : string) (now : datetime)
  | UpdateFromWsMessage (message : ws_message) (now : datetime).

(** One call on the heap and the store it finds. *)
Definition run_mutation (m : mutation) (h : heap) (self : CacheService.t)
    : result (heap * CacheService.t) :=
  match m with
  | SetTopic topic =>
      self ← CacheService.set_topic h topic self; Ok (h, self)
  | UpdatePrice market_id outcome_side price now =>
      Ok (CacheService.update_price self market_id outcome_side price now h,
          self)
  | UpdateFromWsMessage message now =>
      Ok (CacheService.update_from_ws_message self message now h, self)
  end.

(** The object a call assigns attributes to, if any: the one stored under
    the market the call names. *)
Definition assigned_object (m : mutation) (self : CacheService.t)
    : option loc :=
  match m with
  | SetTopic _ => None
  | UpdatePrice market_id _ _ _ => CacheService.get_topic self market_id
  | UpdateFromWsMessage message _ =>
      CacheService.get_topic self (message_market_id message)
  end.

(** [message.outcome_side], an attribute all three classes have. *)
Definition message_outcome_side (message : ws_message) : Z :=
  match message with
  | DepthDiff m => DepthDiffMessage.outcome_side m
  | LastPrice m => LastPriceMessage.outcome_side m
  | LastTrade m => LastTradeMessage.outcome_side m
  end.

(** ** The contract of [search], in the words of the design document *)

(** [s] contains [keyword] case-insensitively as a substring. *)
Definition contains_ci (keyword s : string) : bool :=
  Str.contains (Str.lower keyword) (Str.lower s).

(** The question, the description or some category contains the keyword. *)
Definition spec_keyword_matches (keyword : string) (x : Topic.t) : bool :=
  contains_ci keyword (Topic.question x)
  || match Topic.description x with
     | Some d => contains_ci keyword d
     | None => false
     end
  || existsb (contains_ci keyword) (default [] (Topic.categories x)).

(** The matching topics in store order, truncated to [limit]. *)
Definition spec_search (self : CacheService.t) (h : heap) (keyword : string)
    (limit : Z) : list loc :=
  take (Z.to_nat limit)
       (List.filter (fun topic => spec_keyword_matches keyword (h topic))
                    (CacheService.get_all_topics self)).

(** ** Reading the runs of the consumer *)

(** [self._running] after the callbacks [cbs], from its value before. *)
Fixpoint still_running (running : bool) (cbs : list callback) : bool :=
  match cbs with
  | [] => running
  | on_open :: rest => still_running true rest
  | on_close :: rest => still_running false rest
  | _ :: rest => still_running running rest
  end.


(** The delays slept, in order. *)
Definition sleeps (es : list effect) : list Z :=
  flat_map (fun e => match e with Sleep s => [s] | _ => [] end) es.


(** A consumer built with the defaults, on which [start] has set
    [_running]. *)
Definition example_consumer : Consumer.t :=
  Consumer.set_running true (Consumer.init Settings.default None None None).

(** A subscribe frame on [channel] carrying [key: market_id]. *)
Definition subscribe_frame (channel key : string) (market_id : Z) : frame :=
  [("action", JString "SUBSCRIBE"); ("channel", JString channel);
   (key, JInt market_id)].

(** ** websocket/consumer.py: [stop] and [get_status] *)

(** What [stop] does to the socket and to the heartbeat task. *)
Inductive shutdown_effect :=
  | CloseSocket        (* self._ws.close() *)
  | CancelHeartbeat    (* self._heartbeat_task.cancel() *)
  | AwaitHeartbeat.    (* await self._heartbeat_task *)

(** [stop] *)
Definition stop (self : Consumer.t) : Consumer.t * list shutdown_effect :=
  let self := Consumer.set_running false self in
  let e1 := match Consumer._ws self with
            | Some _ => [CloseSocket]
            | None => []
            end in
  let e2 := match Consumer._heartbeat_task self with
            | Some _ => [CancelHeartbeat; AwaitHeartbeat]
            | None => []
            end in
  (self, (e1 ++ e2)%list).

(** The dictionary returned by [get_status]. *)
Record status := {
  connected : bool;
  status_url : string;
  status_heartbeat_interval : Z
}.

(** [get_status] *)
Definition get_status (self : Consumer.t) : status :=
  {| connected := Consumer.is_connected self;
     status_url := Consumer.url self;
     status_heartbeat_interval := Consumer.heartbeat_interval self |}.

(** ** api/v1/health.py *)

Record HealthStatus := {
  health : string;                      (* the field [status] *)
  websocket_connected : bool;
  websocket_details : option status;
  cache_size : option Z
}.

(** [health_check] *)
Definition health_check (ws_consumer : Consumer.t) (cache : CacheService.t)
    : HealthStatus :=
  let ws_status := get_status ws_consumer in
  let cache_size := CacheService.get_topic_count cache in
  {| health := if connected ws_status then "healthy" else "degraded";
     websocket_connected := connected ws_status;
     websocket_details := Some ws_status;
     cache_size := Some cache_size |}.

(** ** services/topic_service.py *)

Module TopicService.

(** A slice bound [i] on a sequence of length [n], as Python clamps it: a
    negative bound counts from the end. *)
Definition slice_index (n i : Z) : Z :=
  if i <? 0 then Z.max (i + n) 0 else Z.min i n.

(** [l[start:stop]] *)
Definition slice {A : Type} (l : list A) (start stop : Z) : list A :=
  let n := Z.of_nat (length l) in
  let a := slice_index n start in
  let b := slice_index n stop in
  take (Z.to_nat (b - a)) (drop (Z.to_nat a) l).

(** [_apply_pagination]: [topics[offset : offset + limit]] *)
Definition _apply_pagination (topics : list loc) (limit offset : Z)
    : list loc :=
  slice topics offset (offset + limit).

(** [get_topic_by_id] *)
Definition get_topic_by_id (cache : CacheService.t) (h : heap)
    (topic_id : string) : option loc :=
  List.find (fun topic => String.eqb (Topic.id (h topic)) topic_id)
            (CacheService.get_all_topics cache).

(** [search_topics] *)
Definition search_topics (cache : CacheService.t) (h : heap) (query : string)
    (limit : Z) (fuzzy : bool) : list loc :=
  if fuzzy then CacheService.search cache h query limit
  else
    let all_topics := CacheService.get_all_topics cache in
    let results :=
      List.filter
        (fun t => Str.contains (Str.lower query)
                               (Str.lower (Topic.question (h t))))
        all_topics in
    slice results 0 limit.

(** [_apply_filters]. A [datetime] is truthy, so [if end_date_before:]
    and [t.end_date and ...] test for [None]; the dates are all naive or
    all aware, and are compared as instants. *)
Definition _apply_filters (h : heap) (topics : list loc)
    (end_date_before end_date_after : option datetime) : list loc :=
  let filtered := topics in
  let filtered :=
    match end_date_before with
    | Some before =>
        List.filter
          (fun t => match Topic.end_date (h t) with
                    | Some d => d <=? before
                    | None => false
                    end) filtered
    | None => filtered
    end in
  let filtered :=
    match end_date_after with
    | Some after =>
        List.filter
          (fun t => match Topic.end_date (h t) with
                    | Some d => d >=? after
                    | None => false
                    end) filtered
    | None => filtered
    end in
  filtered.

End TopicService.

(** ** Runs of the store, and what its words and frames are *)

(** A call on the store: the bulk load or one of the mutations. *)
Inductive call :=
  | Initialize (topics : list loc)
  | Mutate (m : mutation).

Definition run_call (c : call) (h : heap) (self : CacheService.t)
    : result (heap * CacheService.t) :=
  match c with
  | Initialize topics => Ok (h, CacheService.initialize_topics h topics self)
  | Mutate m => run_mutation m h self
  end.

Fixpoint run_calls (cs : list call) (h : heap) (self : CacheService.t)
    : result (heap * CacheService.t) :=
  match cs with
  | [] => Ok (h, self)
  | c :: rest =>
      match run_call c h self with
      | Ok (h, self) => run_calls rest h self
      | Raise e => Raise e
      end
  end.

(** The keys of the store are pairwise distinct, and each one is the
    [market_id] of the object stored under it. *)
Definition store_ok (h : heap) (self : CacheService.t) : Prop :=
  NoDup (OrderedDict.keys (CacheService._topics self))
  /\ Forall (fun kv : Z * loc => Topic.market_id (h (snd kv)) = fst kv)
            (CacheService._topics self).

(** The words [_update_search_index] reads off a topic. *)
Definition topic_words (x : Topic.t) : list string :=
  (Str.split (Str.lower (Topic.question x))
   ++ match Topic.description x with
      | Some d => Str.split (Str.lower d)
      | None => []
      end
   ++ flat_map (fun c => Str.split (Str.lower c))
               (default [] (Topic.categories x)))%list.

(** The market ids the index holds for a word ([set()] when it has no
    entry). *)
Definition index_ids (index : gmap string (gset Z)) (word : string) : gset Z :=
  default ∅ (index !! word).

(** The frames of one topic, as [_subscribe_market] derives them. *)
Definition subscriptions_for (x : Topic.t) : list frame :=
  if String.eqb (Topic.outcome_type x) "categorical" then
    [subscribe_frame "market.last.price" "rootMarketId" (Topic.market_id x)]
  else
    [subscribe_frame "market.last.price" "marketId" (Topic.market_id x);
     subscribe_frame "market.depth.diff" "marketId" (Topic.market_id x);
     subscribe_frame "market.last.trade" "marketId" (Topic.market_id x)].

(** * Properties of the topic cache *)

Section OrderedDictFacts.

Import OrderedDict.

Lemma length_remove (k : Z) (d : OrderedDict.t) :
  mem k d = true -> S (length (remove k d)) = length d.
Proof.
  unfold mem. induction d as [|[k' v] d IH]; simpl; [discriminate|].
  destruct (k' =? k); [reflexivity|].
  intros H. simpl. f_equal. apply IH, H.
Qed.

Lemma length_setitem (k : Z) (v : loc) (d : OrderedDict.t) :
  length (setitem k v d) = if mem k d then length d else S (length d).
Proof.
  unfold mem. induction d as [|[k' v'] d IH]; simpl; [reflexivity|].
  destruct (k' =? k); simpl; [reflexivity|].
  rewrite IH. destruct (get k d); reflexivity.
Qed.

Lemma length_setitem_le (k : Z) (v : loc) (d : OrderedDict.t) :
  (length (setitem k v d) <= S (length d))%nat.
Proof. rewrite length_setitem. destruct (mem k d); lia. Qed.

Lemma setitem_not_nil (k : Z) (v : loc) (d : OrderedDict.t) :
  setitem k v d <> [].
Proof. destruct d as [|[k' v'] d]; simpl; [|destruct (k' =? k)]; discriminate. Qed.

End OrderedDictFacts.

(** [set_topic] never raises: the [del] is guarded by the membership test,
    and [popitem] runs on a dictionary that has just received a key. *)
Lemma set_topic_eq (h : heap) (topic : loc) (self : CacheService.t) :
  CacheService.set_topic h topic self =
  Ok (CacheService.mk
        (topics_after_set (CacheService._max_size self)
           (Topic.market_id (h topic)) topic (CacheService._topics self))
        (CacheService._max_size self)
        (CacheService._update_search_index h topic
           (CacheService._search_index self))).
Proof.
  unfold CacheService.set_topic, topics_after_set, OrderedDict.delitem.
  set (k := Topic.market_id (h topic)).
  destruct (OrderedDict.mem k (CacheService._topics self)) eqn:Hm; simpl.
  - pose proof (setitem_not_nil k topic
                  (OrderedDict.remove k (CacheService._topics self))) as Hne.
    destruct (OrderedDict.setitem k topic _) as [|kv d]; [congruence|].
    destruct (OrderedDict.len (kv :: d) >? _); reflexivity.
  - pose proof (setitem_not_nil k topic (CacheService._topics self)) as Hne.
    destruct (OrderedDict.setitem k topic _) as [|kv d]; [congruence|].
    destruct (OrderedDict.len (kv :: d) >? _); reflexivity.
Qed.

Lemma topics_after_set_len (max_size k : Z) (topic : loc) (d : OrderedDict.t) :
  OrderedDict.len d <= max_size ->
  OrderedDict.len (topics_after_set max_size k topic d) <= max_size.
Proof.
  unfold topics_after_set, OrderedDict.len. intros Hd.
  destruct (OrderedDict.mem k d) eqn:Hm.
  - pose proof (length_remove k d Hm) as Hr.
    pose proof (length_setitem_le k topic (OrderedDict.remove k d)) as Hs.
    destruct (Z.gtb_spec
                (Z.of_nat (length (OrderedDict.setitem k topic
                                     (OrderedDict.remove k d)))) max_size);
      [lia|lia].
  - pose proof (length_setitem k topic d) as Hs. rewrite Hm in Hs.
    destruct (Z.gtb_spec
                (Z.of_nat (length (OrderedDict.setitem k topic d))) max_size)
      as [Hgt|Hle]; [|lia].
    destruct (OrderedDict.setitem k topic d); simpl in *; lia.
Qed.

Lemma set_topics_bounded (h : heap) (topics : list loc) :
  forall self : CacheService.t,
    CacheService.get_topic_count self <= CacheService._max_size self ->
    exists self',
      set_topics h topics self = Ok self'
      /\ CacheService._max_size self' = CacheService._max_size self
      /\ CacheService.get_topic_count self' <= CacheService._max_size self'.
Proof.
  induction topics as [|topic rest IH]; intros self Hle; simpl.
  - exists self. auto.
  - rewrite set_topic_eq. simpl.
    edestruct IH as (self' & Hrun & Hmax & Hcount);
      [|exists self'; split; [exact Hrun|split; [|exact Hcount]]].
    + unfold CacheService.get_topic_count. simpl.
      apply topics_after_set_len, Hle.
    + rewrite Hmax. reflexivity.
Qed.

(** C8. Starting from the empty store built by [CacheService(max_size)],
    whose capacity [_max_size] is not negative, every sequence of
    [set_topic] calls runs to the end without raising and leaves at most
    [_max_size] topics in the store. *)
Theorem upsert_sequence_within_max_size
    (settings : Settings.t) (max_size : Z) (h : heap) (topics : list loc) :
  0 <= CacheService._max_size (CacheService.init settings max_size) ->
  exists self',
    set_topics h topics (CacheService.init settings max_size) = Ok self'
    /\ CacheService._max_size self'
       = CacheService._max_size (CacheService.init settings max_size)
    /\ CacheService.get_topic_count self' <= CacheService._max_size self'.
Proof.
  intros Hcap. apply set_topics_bounded.
  unfold CacheService.get_topic_count. simpl. exact Hcap.
Qed.

Lemma upsert_sequence_within_max_size_witness :
  exists self',
    set_topics example_heap [0; 1; 2; 0; 1]%nat
               (CacheService.init Settings.default 2) = Ok self'
    /\ CacheService._max_size self'
       = CacheService._max_size (CacheService.init Settings.default 2)
    /\ CacheService.get_topic_count self' <= CacheService._max_size self'.
Proof.
  apply (upsert_sequence_within_max_size
           Settings.default 2 example_heap [0; 1; 2; 0; 1]%nat).
  simpl. lia.
Defined.

(** C4. With [max_size = 2] and three topics of distinct market ids:
    upserting A, B, C leaves exactly B and C, in that order; upserting
    A, B, A again and then C leaves exactly A and C (B is evicted). Reads
    ([get_topic], [get_all_topics], [search]) return no new store, so they
    cannot change the order either. *)
Theorem eviction_follows_last_upsert
    (settings : Settings.t) (h : heap) (a b c : loc) :
  Topic.market_id (h a) <> Topic.market_id (h b) ->
  Topic.market_id (h a) <> Topic.market_id (h c) ->
  Topic.market_id (h b) <> Topic.market_id (h c) ->
  (exists self',
      set_topics h [a; b; c] (CacheService.init settings 2) = Ok self'
      /\ CacheService._topics self'
         = [(Topic.market_id (h b), b); (Topic.market_id (h c), c)])
  /\ (exists self',
      set_topics h [a; b; a; c] (CacheService.init settings 2) = Ok self'
      /\ CacheService._topics self'
         = [(Topic.market_id (h a), a); (Topic.market_id (h c), c)]).
Proof.
  intros Hab Hac Hbc.
  assert (Eab : (Topic.market_id (h a) =? Topic.market_id (h b)) = false)
    by (apply Z.eqb_neq; assumption).
  assert (Eac : (Topic.market_id (h a) =? Topic.market_id (h c)) = false)
    by (apply Z.eqb_neq; assumption).
  assert (Ebc : (Topic.market_id (h b) =? Topic.market_id (h c)) = false)
    by (apply Z.eqb_neq; assumption).
  assert (Eba : (Topic.market_id (h b) =? Topic.market_id (h a)) = false)
    by (apply Z.eqb_neq; congruence).
  assert (Eca : (Topic.market_id (h c) =? Topic.market_id (h a)) = false)
    by (apply Z.eqb_neq; congruence).
  assert (Ecb : (Topic.market_id (h c) =? Topic.market_id (h b)) = false)
    by (apply Z.eqb_neq; congruence).
  split; eexists; repeat (simpl; rewrite set_topic_eq);
    (split; [reflexivity|]);
    unfold topics_after_set, OrderedDict.mem; simpl;
    repeat (rewrite ?Z.eqb_refl, ?Eab, ?Eac, ?Ebc, ?Eba, ?Eca, ?Ecb; simpl);
    reflexivity.
Qed.

Lemma eviction_follows_last_upsert_witness :
  (exists self',
      set_topics example_heap [0; 1; 2]%nat
                 (CacheService.init Settings.default 2) = Ok self'
      /\ CacheService._topics self' = [(9, 1%nat); (42, 2%nat)])
  /\ (exists self',
      set_topics example_heap [0; 1; 0; 2]%nat
                 (CacheService.init Settings.default 2) = Ok self'
      /\ CacheService._topics self' = [(7, 0%nat); (42, 2%nat)]).
Proof.
  apply (eviction_follows_last_upsert
           Settings.default example_heap 0%nat 1%nat 2%nat);
    simpl; lia.
Defined.

(** C1 (the code departs from the claim). [initialize_topics] assigns every
    topic without ever evicting: on a store of capacity 1 a bulk load of
    three topics leaves three topics. A later [set_topic] evicts one entry
    only, so the store is still above its capacity after it. *)
Theorem initialize_topics_exceeds_max_size :
  let self :=
    CacheService.initialize_topics example_heap [0; 1; 2]%nat
      (CacheService.init Settings.default 1) in
  CacheService._max_size self = 1
  /\ CacheService.get_topic_count self = 3
  /\ exists self',
       CacheService.set_topic example_heap 0%nat self = Ok self'
       /\ CacheService._max_size self' = 1
       /\ CacheService.get_topic_count self' = 2.
Proof.
  cbv zeta. split; [reflexivity|]. split; [reflexivity|].
  eexists. split; [rewrite (set_topic_eq example_heap 0%nat); reflexivity|].
  split; reflexivity.
Qed.

(** ** In-place updates and aliasing *)

Lemma mutate_same (l : loc) (f : Topic.t -> Topic.t) (h : heap) :
  mutate l f h l = f (h l).
Proof. unfold mutate. destruct (decide (l = l)); congruence. Qed.

Lemma mutate_other (l l' : loc) (f : Topic.t -> Topic.t) (h : heap) :
  l' <> l -> mutate l f h l' = h l'.
Proof. unfold mutate. intros Hne. destruct (decide (l' = l)); congruence. Qed.

Lemma assign_prices_other (topic l : loc) (side : Z) (price : string)
    (h : heap) :
  l <> topic -> CacheService.assign_prices topic side price h l = h l.
Proof.
  intros Hne. unfold CacheService.assign_prices.
  destruct (side =? 1); [|destruct (side =? 2)];
    rewrite ?mutate_other by assumption; reflexivity.
Qed.

Lemma update_price_other (self : CacheService.t) (market_id side : Z)
    (price : string) (now : datetime) (h : heap) (l : loc) :
  CacheService.get_topic self market_id <> Some l ->
  CacheService.update_price self market_id side price now h l = h l.
Proof.
  unfold CacheService.update_price, CacheService.get_topic. intros Hne.
  destruct (OrderedDict.get market_id (CacheService._topics self)) as [topic|];
    [|reflexivity].
  assert (l <> topic) by congruence.
  rewrite mutate_other, assign_prices_other by assumption. reflexivity.
Qed.

Lemma update_from_ws_message_other (self : CacheService.t)
    (message : ws_message) (now : datetime) (h : heap) (l : loc) :
  CacheService.get_topic self (message_market_id message) <> Some l ->
  CacheService.update_from_ws_message self message now h l = h l.
Proof.
  unfold CacheService.update_from_ws_message, CacheService.get_topic.
  intros Hne.
  destruct (OrderedDict.get _ (CacheService._topics self)) as [topic|];
    [|reflexivity].
  assert (l <> topic) by congruence.
  destruct message; rewrite ?assign_prices_other, ?mutate_other by assumption;
    reflexivity.
Qed.

Lemma get_in_values (k : Z) (d : OrderedDict.t) (l : loc) :
  OrderedDict.get k d = Some l -> In l (OrderedDict.values d).
Proof.
  induction d as [|[k' v] d IH]; simpl; [discriminate|].
  destruct (k' =? k); [intros [= ->]; left; reflexivity|].
  intros H. right. apply IH, H.
Qed.

(** C3 (as stated, false): a list returned by [get_all_topics] before a
    price update shows the new prices afterwards. *)
Lemma all_reflects_later_price_update :
  map (CacheService.update_price example_cache 42 1 "0.55" 200 example_heap)
      (CacheService.get_all_topics example_cache)
  <> map example_heap (CacheService.get_all_topics example_cache).
Proof.
  intros H.
  apply (f_equal (fun ts => Topic.yes_price <$> ts !! 2%nat)) in H.
  vm_compute in H. discriminate H.
Qed.

(** C3 (amended). The list returned by [get_all_topics] holds references
    to the store's own objects. Whatever call follows ([set_topic],
    [update_price], [update_from_ws_message]), it runs without raising and
    every topic of the earlier list keeps its values, except the single
    object stored under the market a price, trade or depth message names:
    that object is in the earlier list and is changed in place. A
    [set_topic], and an update for a market that is not stored, change no
    value seen through the list. *)
Theorem all_is_a_copy_of_references
    (m : mutation) (h : heap) (self : CacheService.t) :
  exists h' self',
    run_mutation m h self = Ok (h', self')
    /\ (forall l, In l (CacheService.get_all_topics self) ->
                  assigned_object m self <> Some l -> h' l = h l)
    /\ (assigned_object m self = None ->
        map h' (CacheService.get_all_topics self)
        = map h (CacheService.get_all_topics self))
    /\ (forall l, assigned_object m self = Some l ->
                  In l (CacheService.get_all_topics self)).
Proof.
  assert (Hall : forall h' : heap,
            (forall l, assigned_object m self <> Some l -> h' l = h l) ->
            assigned_object m self = None ->
            map h' (CacheService.get_all_topics self)
            = map h (CacheService.get_all_topics self)).
  { intros h' Hsame Hnone. apply map_ext. intros l.
    apply Hsame. rewrite Hnone. discriminate. }
  destruct m as [topic|market_id side price now|message now]; simpl.
  - rewrite set_topic_eq. simpl. eexists _, _. split; [reflexivity|].
    split; [intros; reflexivity|]. split; [intros; reflexivity|].
    intros l. discriminate.
  - eexists _, _. split; [reflexivity|].
    assert (Hsame : forall l,
              CacheService.get_topic self market_id <> Some l ->
              CacheService.update_price self market_id side price now h l
              = h l) by (intros; apply update_price_other; assumption).
    split; [auto|]. split; [apply Hall, Hsame|].
    intros l. apply get_in_values.
  - eexists _, _. split; [reflexivity|].
    assert (Hsame : forall l,
              CacheService.get_topic self (message_market_id message)
              <> Some l ->
              CacheService.update_from_ws_message self message now h l
              = h l) by (intros; apply update_from_ws_message_other; assumption).
    split; [auto|]. split; [apply Hall, Hsame|].
    intros l. apply get_in_values.
Qed.

(** ** Price, trade and depth updates *)

Lemma update_price_absent (self : CacheService.t) (market_id side : Z)
    (price : string) (now : datetime) (h : heap) :
  CacheService.get_topic self market_id = None ->
  CacheService.update_price self market_id side price now h = h.
Proof.
  unfold CacheService.update_price, CacheService.get_topic.
  intros ->. reflexivity.
Qed.

(** The object found under the key, after [update_price]. *)
Lemma update_price_present (self : CacheService.t) (market_id side : Z)
    (price : string) (now : datetime) (h : heap) (topic : loc) :
  CacheService.get_topic self market_id = Some topic ->
  CacheService.update_price self market_id side price now h topic
  = Topic.set_updated_at (Some now)
      (if side =? 1
       then Topic.set_last_price (Some price)
              (Topic.set_yes_price (Some price) (h topic))
       else if side =? 2 then Topic.set_no_price (Some price) (h topic)
       else h topic).
Proof.
  unfold CacheService.update_price, CacheService.get_topic,
    CacheService.assign_prices.
  intros ->. rewrite mutate_same.
  destruct (side =? 1); [|destruct (side =? 2)];
    rewrite ?mutate_same; reflexivity.
Qed.

(** The two orders in which [update_price] and [update_from_ws_message]
    assign [updated_at] and the prices give the same object. *)
Lemma assign_prices_updated_at_commute (topic l : loc) (side : Z)
    (price : string) (now : datetime) (h : heap) :
  CacheService.assign_prices topic side price
    (mutate topic (Topic.set_updated_at (Some now)) h) l
  = mutate topic (Topic.set_updated_at (Some now))
      (CacheService.assign_prices topic side price h) l.
Proof.
  unfold CacheService.assign_prices, mutate.
  destruct (side =? 1); [|destruct (side =? 2)];
    destruct (decide (l = topic)); try reflexivity;
    destruct (h l); reflexivity.
Qed.

(** C6. [update_price] on a market that is not stored changes nothing and
    raises nothing. On a stored market it assigns, on the stored object:
    for side 1, [yes_price] and [last_price]; for side 2, [no_price]; for any
    other side, none of the three; and [updated_at] in every case. No other
    object changes. A trade message, and a price message, applied through
    [update_from_ws_message] give the same heap as [update_price] with the
    message's market, side and price. *)
Theorem price_and_trade_update_semantics
    (self : CacheService.t) (market_id outcome_side : Z) (price : string)
    (now : datetime) (h : heap) :
  let h' :=
    CacheService.update_price self market_id outcome_side price now h in
  (match CacheService.get_topic self market_id with
   | None => forall l, h' l = h l
   | Some topic =>
       (outcome_side = 1 ->
        Topic.yes_price (h' topic) = Some price
        /\ Topic.last_price (h' topic) = Some price
        /\ Topic.no_price (h' topic) = Topic.no_price (h topic))
       /\ (outcome_side = 2 ->
           Topic.no_price (h' topic) = Some price
           /\ Topic.yes_price (h' topic) = Topic.yes_price (h topic)
           /\ Topic.last_price (h' topic) = Topic.last_price (h topic))
       /\ (outcome_side <> 1 -> outcome_side <> 2 ->
           Topic.yes_price (h' topic) = Topic.yes_price (h topic)
           /\ Topic.last_price (h' topic) = Topic.last_price (h topic)
           /\ Topic.no_price (h' topic) = Topic.no_price (h topic))
       /\ Topic.updated_at (h' topic) = Some now
       /\ (forall l, l <> topic -> h' l = h l)
   end)
  /\ (forall token_id side shares amount msg_type l,
        CacheService.update_from_ws_message self
          (LastTrade (LastTradeMessage.mk market_id token_id outcome_side
                        side price shares amount msg_type)) now h l
        = h' l)
  /\ (forall token_id msg_type l,
        CacheService.update_from_ws_message self
          (LastPrice (LastPriceMessage.mk market_id token_id outcome_side
                        price msg_type)) now h l
        = h' l).
Proof.
  cbv zeta. split; [|split].
  - destruct (CacheService.get_topic self market_id) as [topic|] eqn:Hget.
    + rewrite (update_price_present _ _ _ _ _ _ _ Hget).
      split; [|split; [|split; [|split]]].
      * intros ->. simpl. auto.
      * intros ->. simpl. auto.
      * intros H1 H2. apply Z.eqb_neq in H1, H2. rewrite H1, H2. auto.
      * destruct (outcome_side =? 1); [|destruct (outcome_side =? 2)];
          reflexivity.
      * intros l Hne. apply update_price_other. congruence.
    + intros l. rewrite update_price_absent by assumption. reflexivity.
  - intros token_id side shares amount msg_type l.
    unfold CacheService.update_from_ws_message, CacheService.update_price.
    simpl.
    destruct (OrderedDict.get market_id (CacheService._topics self))
      as [topic|] eqn:Hget; [|reflexivity].
    apply assign_prices_updated_at_commute.
  - intros token_id msg_type l.
    unfold CacheService.update_from_ws_message, CacheService.update_price.
    simpl.
    destruct (OrderedDict.get market_id (CacheService._topics self))
      as [topic|] eqn:Hget; [|reflexivity].
    apply assign_prices_updated_at_commute.
Qed.

(** C10. A depth, price or trade message for a stored market always
    assigns [updated_at] on the stored object, whatever the message class
    and the side; a depth message, and a message whose side is neither 1
    nor 2, leave the three price attributes as they were. [update_price]
    refreshes [updated_at] for every side too (see above). *)
Theorem ws_message_always_refreshes_updated_at
    (self : CacheService.t) (message : ws_message) (now : datetime)
    (h : heap) (topic : loc) :
  CacheService.get_topic self (message_market_id message) = Some topic ->
  let h' := CacheService.update_from_ws_message self message now h in
  Topic.updated_at (h' topic) = Some now
  /\ ((exists m, message = DepthDiff m)
      \/ (message_outcome_side message <> 1
          /\ message_outcome_side message <> 2) ->
      Topic.yes_price (h' topic) = Topic.yes_price (h topic)
      /\ Topic.last_price (h' topic) = Topic.last_price (h topic)
      /\ Topic.no_price (h' topic) = Topic.no_price (h topic)).
Proof.
  unfold CacheService.get_topic, CacheService.update_from_ws_message.
  intros Hget. cbv zeta. rewrite Hget.
  unfold CacheService.assign_prices. split.
  - destruct message as [m|m|m]; simpl;
      repeat match goal with
             | |- context [?a =? ?b] => destruct (a =? b)
             end;
      rewrite ?mutate_same; reflexivity.
  - intros [[m0 ->]|[H1 H2]].
    + rewrite mutate_same. repeat split.
    + apply Z.eqb_neq in H1, H2.
      destruct message as [m|m|m]; simpl in *; rewrite ?H1, ?H2;
        rewrite mutate_same; repeat split.
Qed.

Lemma ws_message_always_refreshes_updated_at_witness :
  let message :=
    DepthDiff (DepthDiffMessage.mk 42 "tok" 1 "bids" "0.55" "10" DEPTH_DIFF) in
  let h' :=
    CacheService.update_from_ws_message example_cache message 200
      example_heap in
  Topic.updated_at (h' 2%nat) = Some 200
  /\ ((exists m, message = DepthDiff m)
      \/ (message_outcome_side message <> 1
          /\ message_outcome_side message <> 2) ->
      Topic.yes_price (h' 2%nat) = Topic.yes_price (example_heap 2%nat)
      /\ Topic.last_price (h' 2%nat) = Topic.last_price (example_heap 2%nat)
      /\ Topic.no_price (h' 2%nat) = Topic.no_price (example_heap 2%nat)).
Proof.
  apply (ws_message_always_refreshes_updated_at example_cache
           (DepthDiff (DepthDiffMessage.mk 42 "tok" 1 "bids" "0.55" "10"
                         DEPTH_DIFF)) 200 example_heap 2%nat).
  reflexivity.
Defined.

(** ** Search *)

Lemma prefix_of_empty (q : string) : String.prefix q "" = true -> q = "".
Proof. destruct q; [reflexivity|discriminate]. Qed.

Lemma contains_in_empty (q : string) : Str.contains q "" = true -> q = "".
Proof.
  simpl. rewrite orb_false_r. apply prefix_of_empty.
Qed.

Lemma contains_empty (s : string) : Str.contains "" s = true.
Proof. destruct s; reflexivity. Qed.

(** The test of the loop is the contract's predicate: the truthiness test
    on the description only drops the empty description, which contains
    the empty keyword alone, and the empty keyword is in every question. *)
Lemma search_match_spec (keyword : string) (x : Topic.t) :
  CacheService.search_match (Str.lower keyword) x
  = spec_keyword_matches keyword x.
Proof.
  unfold CacheService.search_match, spec_keyword_matches, contains_ci.
  destruct (Topic.description x) as [d|]; [|reflexivity].
  destruct d as [|a d]; [|reflexivity].
  simpl Str.truthy. simpl andb.
  destruct (Str.contains (Str.lower keyword) (Str.lower "")) eqn:He;
    [|reflexivity].
  apply contains_in_empty in He. rewrite He, contains_empty. reflexivity.
Qed.

Section SearchLoop.

Variables (h : heap) (query_lower : string) (limit : Z).

Let hit (topic : loc) : bool :=
  CacheService.search_match query_lower (h topic).

(** The loop stops at the first position [k] where [limit] results are
    collected, or at the end of the values. *)
Lemma search_loop_spec (values : list loc) :
  forall (results : list loc) (visited : nat),
    Z.of_nat (length results) < limit ->
    exists k : nat,
      (k <= length values)%nat
      /\ CacheService.search_loop h query_lower limit values results visited
         = ((results ++ List.filter hit (take k values))%list,
            (visited + k)%nat)
      /\ List.filter hit (take k values)
         = take (Z.to_nat limit - length results) (List.filter hit values)
      /\ ((k < length values)%nat ->
          Z.of_nat (length results
                    + length (List.filter hit (take k values))) = limit)
      /\ (forall j : nat, (j < k)%nat ->
          Z.of_nat (length results
                    + length (List.filter hit (take j values))) < limit).
Proof.
  induction values as [|topic rest IH]; intros results visited Hlt.
  - exists 0%nat. simpl. rewrite app_nil_r, Nat.add_0_r.
    split; [lia|]. split; [reflexivity|].
    split; [destruct (Z.to_nat limit - length results)%nat; reflexivity|].
    split; intros; lia.
  - simpl CacheService.search_loop. fold (hit topic).
    destruct (hit topic) eqn:Hhit.
    + destruct (Z.geb_spec (Z.of_nat (length (results ++ [topic])%list)) limit)
        as [Hge|Hsmall]; rewrite length_app in *; simpl length in *.
      * exists 1%nat. simpl. rewrite Hhit.
        replace (Z.to_nat limit - length results)%nat with 1%nat by lia.
        simpl. split; [lia|]. split; [f_equal; lia|].
        split; [reflexivity|]. split; [intros; lia|].
        intros j Hj. replace j with 0%nat by lia. simpl. lia.
      * destruct (IH (results ++ [topic])%list (S visited)) as
          (k & Hk & Hrun & Htake & Hstop & Hbefore);
          [rewrite length_app; simpl; lia|].
        rewrite length_app in *. simpl length in *.
        exists (S k). simpl. rewrite Hhit. split; [lia|].
        split; [rewrite Hrun, <- app_assoc; simpl; f_equal; lia|].
        split; [|split].
        -- replace (Z.to_nat limit - length results)%nat
             with (S (Z.to_nat limit - (length results + 1)))%nat by lia.
           simpl. f_equal. exact Htake.
        -- intros Hlen. simpl. rewrite <- Hstop by lia. lia.
        -- intros [|j] Hj; simpl; [lia|].
           rewrite Hhit. simpl. specialize (Hbefore j). lia.
    + destruct (IH results (S visited) Hlt) as
        (k & Hk & Hrun & Htake & Hstop & Hbefore).
      exists (S k). simpl. rewrite Hhit. split; [lia|].
      split; [rewrite Hrun; f_equal; lia|].
      split; [exact Htake|]. split.
      * intros Hlen. apply Hstop. lia.
      * intros [|j] Hj; simpl; [lia|].
        rewrite Hhit. apply Hbefore. lia.
Qed.

End SearchLoop.

(** C7 (as stated, false): with [limit = 0] the loop appends the first
    match before it tests the limit, so one topic is returned where the
    contract allows none. *)
Lemma search_limit_zero_returns_a_topic :
  CacheService.search example_cache example_heap "election" 0
  <> spec_search example_cache example_heap "election" 0.
Proof. vm_compute. discriminate. Qed.

(** C7 (amended). For every keyword and every limit of at least 1,
    [search] returns the topics, in store order, whose question,
    description or some category contains the keyword case-insensitively,
    cut to the first [limit] of them; and the scan stops as soon as [limit]
    results are collected: it visits a prefix of the store, every match of
    that prefix is returned, the prefix is the whole store unless exactly
    [limit] results were found, and no shorter prefix holds [limit]
    matches. *)
Theorem search_returns_first_matches
    (self : CacheService.t) (h : heap) (keyword : string) (limit : Z) :
  1 <= limit ->
  let values := CacheService.get_all_topics self in
  let matches topic := spec_keyword_matches keyword (h topic) in
  let results := CacheService.search self h keyword limit in
  let visited := CacheService.search_visited self h keyword limit in
  results = spec_search self h keyword limit
  /\ Z.of_nat (length results) <= limit
  /\ (visited <= length values)%nat
  /\ results = List.filter matches (take visited values)
  /\ ((visited < length values)%nat -> Z.of_nat (length results) = limit)
  /\ (forall j : nat, (j < visited)%nat ->
      Z.of_nat (length (List.filter matches (take j values))) < limit).
Proof.
  intros Hlimit. cbv zeta.
  unfold CacheService.search, CacheService.search_visited, spec_search,
    CacheService.get_all_topics.
  destruct (search_loop_spec h (Str.lower keyword) limit
              (OrderedDict.values (CacheService._topics self)) [] 0%nat)
    as (k & Hk & Hrun & Htake & Hstop & Hbefore); [simpl; lia|].
  rewrite Hrun. simpl fst. simpl snd. simpl app in *. simpl length in *.
  rewrite Nat.sub_0_r in Htake.
  assert (Hext : forall l : list loc,
            List.filter
              (fun topic =>
                 CacheService.search_match (Str.lower keyword) (h topic)) l
            = List.filter
                (fun topic => spec_keyword_matches keyword (h topic)) l).
  { intros l. apply List.filter_ext. intros topic. apply search_match_spec. }
  rewrite !Hext in Htake. rewrite !Hext.
  split; [exact Htake|]. split.
  - rewrite Htake, length_take. lia.
  - split; [exact Hk|]. split; [reflexivity|]. split.
    + intros Hlen. apply Hstop in Hlen. rewrite Hext in Hlen. exact Hlen.
    + intros j Hj. specialize (Hbefore j Hj). rewrite Hext in Hbefore.
      exact Hbefore.
Qed.

Lemma search_returns_first_matches_witness :
  let values := CacheService.get_all_topics example_cache in
  let matches topic := spec_keyword_matches "Election" (example_heap topic) in
  let results := CacheService.search example_cache example_heap "Election" 1 in
  let visited :=
    CacheService.search_visited example_cache example_heap "Election" 1 in
  results = spec_search example_cache example_heap "Election" 1
  /\ Z.of_nat (length results) <= 1
  /\ (visited <= length values)%nat
  /\ results = List.filter matches (take visited values)
  /\ ((visited < length values)%nat -> Z.of_nat (length results) = 1)
  /\ (forall j : nat, (j < visited)%nat ->
      Z.of_nat (length (List.filter matches (take j values))) < 1).
Proof.
  apply (search_returns_first_matches example_cache example_heap "Election" 1).
  lia.
Defined.

(** * Properties of the websocket consumer *)

Section RunForever.

Import Consumer.

Lemma run_callback_fields (self : Consumer.t) (cb : callback) :
  let self' := fst (run_callback self cb) in
  _running self' = still_running (_running self) [cb]
  /\ _reconnect_delay self' = _reconnect_delay self
  /\ _max_reconnect_delay self' = _max_reconnect_delay self
  /\ _ws self' = _ws self
  /\ sleeps (snd (run_callback self cb)) = [].
Proof. destruct cb; simpl; auto. Qed.

Lemma still_running_cons (running : bool) (cb : callback)
    (cbs : list callback) :
  still_running running (cb :: cbs)
  = still_running (still_running running [cb]) cbs.
Proof. destruct cb; reflexivity. Qed.

Lemma sleeps_app (e1 e2 : list effect) :
  sleeps (e1 ++ e2) = (sleeps e1 ++ sleeps e2)%list.
Proof. unfold sleeps. apply flat_map_app. Qed.

Lemma run_forever_fields (cbs : list callback) :
  forall self : Consumer.t,
    let self' := fst (run_forever self cbs) in
    _running self' = still_running (_running self) cbs
    /\ _reconnect_delay self' = _reconnect_delay self
    /\ _max_reconnect_delay self' = _max_reconnect_delay self
    /\ _ws self' = _ws self
    /\ sleeps (snd (run_forever self cbs)) = [].
Proof.
  induction cbs as [|cb cbs IH]; intros self; [simpl; auto|].
  cbv zeta. simpl run_forever.
  pose proof (run_callback_fields self cb) as Hcb. cbv zeta in Hcb.
  destruct (run_callback self cb) as [self1 e1]. simpl in Hcb.
  destruct Hcb as (Hr & Hd & Hm & Hw & Hs).
  specialize (IH self1). cbv zeta in IH.
  destruct (run_forever self1 cbs) as [self2 e2]. simpl in IH. simpl fst.
  simpl snd. destruct IH as (Hr' & Hd' & Hm' & Hw' & Hs').
  rewrite still_running_cons, sleeps_app, Hs, Hs', Hr', Hr, Hd', Hd, Hm',
    Hm, Hw', Hw.
  auto.
Qed.

(** [_connect], when the awaited [run_forever] raises. *)
Lemma connect_raises (self : Consumer.t) (tr : transport) :
  raises tr = true ->
  exists self' es,
    _connect self tr = (self', es, true)
    /\ _running self' = still_running (_running self) (events tr)
    /\ _reconnect_delay self' = _reconnect_delay self
    /\ _max_reconnect_delay self' = _max_reconnect_delay self
    /\ sleeps es = [].
Proof.
  intros Hraise. unfold _connect.
  pose proof (run_forever_fields (events tr)
                (set_ws (Some {| ws_url := url self +:+ "?apikey=" +:+ api_key self |})
                        self)) as H.
  cbv zeta in H.
  destruct (run_forever _ (events tr)) as [self1 e1]. simpl in H.
  rewrite Hraise. exists self1, e1. tauto.
Qed.

(** [_connect], when the awaited [run_forever] returns. *)
Lemma connect_returns (self : Consumer.t) (tr : transport) :
  raises tr = false ->
  exists self' es,
    _connect self tr
    = (self', (es ++ [CreateTask heartbeat_loop_task])%list, false)
    /\ es = snd (run_forever
                   (set_ws (Some {| ws_url :=
                                      url self +:+ "?apikey=" +:+ api_key self |})
                           self) (events tr))
    /\ _running self' = still_running (_running self) (events tr)
    /\ _reconnect_delay self' = _reconnect_delay self
    /\ _max_reconnect_delay self' = _max_reconnect_delay self
    /\ sleeps es = [].
Proof.
  intros Hret. unfold _connect.
  pose proof (run_forever_fields (events tr)
                (set_ws (Some {| ws_url := url self +:+ "?apikey=" +:+ api_key self |})
                        self)) as H.
  cbv zeta in H.
  destruct (run_forever _ (events tr)) as [self1 e1]. simpl in H.
  rewrite Hret. eexists _, e1. split; [reflexivity|]. simpl. tauto.
Qed.

End RunForever.

(** ** Reconnection delays *)









(** ** Heartbeat *)

Lemma run_forever_creates_tasks (cbs : list callback) :
  forall (self : Consumer.t) (e : effect),
    In e (snd (Consumer.run_forever self cbs)) -> exists c, e = CreateTask c.
Proof.
  induction cbs as [|cb cbs IH]; intros self e; simpl; [tauto|].
  destruct (Consumer.run_callback self cb) as [self1 e1] eqn:Hcb.
  specialize (IH self1 e).
  destruct (Consumer.run_forever self1 cbs) as [self2 e2]. simpl in *.
  rewrite in_app_iff. intros [Hin|Hin]; [|auto].
  destruct cb; simpl in Hcb; injection Hcb as <- <-; simpl in Hin;
    try tauto; destruct Hin as [<-|[]]; eauto.
Qed.

Lemma still_running_closed (cbs : list callback) (running : bool) :
  still_running running (cbs ++ [on_close]) = false.
Proof.
  revert running. induction cbs as [|cb cbs IH]; intros running;
    [reflexivity|].
  destruct cb; simpl; apply IH.
Qed.

(** C2 (the code departs from the claim). Take any connection that the
    transport ends by calling [on_close], whatever it delivered before
    ([on_open], messages, errors). [_connect] awaits [run_forever] for the
    whole life of the connection and creates the heartbeat task only after
    it has returned: the task creation is the last effect of [_connect],
    after every callback of the connection, and no frame was sent before.
    By then [on_close] has cleared [_running], so the retry loop leaves and
    the heartbeat loop, whose first test finds [_running] false, sends
    nothing: no heartbeat frame is ever sent for this connection. *)
Theorem heartbeat_created_after_connection_ended
    (self : Consumer.t) (cbs : list callback) (rest : list transport) :
  let tr := {| events := cbs ++ [on_close]; raises := false |} in
  exists (self' : Consumer.t) (during : list effect),
    Consumer._connect self tr
    = (self', (during ++ [CreateTask heartbeat_loop_task])%list, false)
    /\ (forall e, In e during ->
                  exists c, e = CreateTask c /\ c <> heartbeat_loop_task)
    /\ Consumer._running self' = false
    /\ (forall send_raises later,
          Consumer._heartbeat_loop ((self', send_raises) :: later) = [])
    /\ (Consumer._running self = true ->
        Consumer._connect_with_retry self (tr :: rest)
        = (Consumer.set_reconnect_delay 5 self',
           (during ++ [CreateTask heartbeat_loop_task])%list)
        /\ forall send_raises later,
             Consumer._heartbeat_loop
               ((Consumer.set_reconnect_delay 5 self', send_raises) :: later)
             = []).
Proof.
  cbv zeta.
  destruct (connect_returns self
              {| events := cbs ++ [on_close]; raises := false |} eq_refl)
    as (self' & during & Hc & Hduring & Hr & _ & _ & _).
  simpl events in *. rewrite still_running_closed in Hr.
  exists self', during. split; [exact Hc|]. split; [|split; [exact Hr|split]].
  - intros e Hin. rewrite Hduring in Hin.
    assert (Hno : forall cbs' self0,
              ~ In (CreateTask heartbeat_loop_task)
                   (snd (Consumer.run_forever self0 cbs'))).
    { induction cbs' as [|cb cbs' IH]; intros self0; simpl; [tauto|].
      destruct (Consumer.run_callback self0 cb) as [self1 e1] eqn:Hcb.
      specialize (IH self1).
      destruct (Consumer.run_forever self1 cbs') as [self2 e2]. simpl in *.
      rewrite in_app_iff. intros [H|H]; [|auto].
      destruct cb; simpl in Hcb; injection Hcb as <- <-; simpl in H;
        try tauto; destruct H as [H|[]]; discriminate H. }
    destruct (run_forever_creates_tasks _ _ _ Hin) as [c ->].
    exists c. split; [reflexivity|]. intros ->. exact (Hno _ _ Hin).
  - intros send_raises later. simpl. rewrite Hr. reflexivity.
  - intros Hrun.
    assert (Hexit : Consumer._connect_with_retry
                      (Consumer.set_reconnect_delay 5 self') rest
                    = (Consumer.set_reconnect_delay 5 self', []))
      by (destruct rest; simpl; rewrite ?Hr; reflexivity).
    change (Consumer._connect_with_retry self
              ({| events := cbs ++ [on_close]; raises := false |} :: rest))
      with (if Consumer._running self then
              let '(self1, e1, raised) :=
                Consumer._connect self
                  {| events := cbs ++ [on_close]; raises := false |} in
              if raised then
                if Consumer._running self1 then
                  let '(self2, e3) :=
                    Consumer._connect_with_retry
                      (Consumer.set_reconnect_delay
                         (Z.min (Consumer._reconnect_delay self1 * 2)
                                (Consumer._max_reconnect_delay self1)) self1)
                      rest in
                  (self2,
                   (e1 ++ [Sleep (Consumer._reconnect_delay self1)] ++ e3)%list)
                else
                  let '(self2, e3) :=
                    Consumer._connect_with_retry self1 rest in
                  (self2, (e1 ++ e3)%list)
              else
                let '(self2, e3) :=
                  Consumer._connect_with_retry
                    (Consumer.set_reconnect_delay 5 self1) rest in
                (self2, (e1 ++ e3)%list)
            else (self, [])).
    rewrite Hrun, Hc, Hexit, app_nil_r. split; [reflexivity|].
    intros send_raises later. simpl. rewrite Hr. reflexivity.
Qed.

(** ** Subscriptions *)

(** C9. On a consumer that holds a socket, [_subscribe_market] sends for a
    topic whose [outcome_type] is ["categorical"] exactly one frame,
    [SUBSCRIBE] on the last-price channel with [rootMarketId = market_id];
    for every other [outcome_type] exactly three frames with
    [marketId = market_id], one on each of the last-price, depth-diff and
    last-trade channels, in that order. *)
Theorem subscribe_market_frames (self : Consumer.t) (x : Topic.t) :
  Consumer._ws self <> None ->
  (Topic.outcome_type x = "categorical" ->
   Consumer._subscribe_market self (Topic.market_id x) (Topic.outcome_type x)
   = [Send (subscribe_frame "market.last.price" "rootMarketId"
                            (Topic.market_id x))])
  /\ (Topic.outcome_type x <> "categorical" ->
      Consumer._subscribe_market self (Topic.market_id x)
                                 (Topic.outcome_type x)
      = [Send (subscribe_frame "market.last.price" "marketId"
                               (Topic.market_id x));
         Send (subscribe_frame "market.depth.diff" "marketId"
                               (Topic.market_id x));
         Send (subscribe_frame "market.last.trade" "marketId"
                               (Topic.market_id x))]).
Proof.
  intros Hws. unfold Consumer._subscribe_market.
  destruct (Consumer._ws self) as [ws|]; [|congruence].
  split.
  - intros ->. reflexivity.
  - intros Hne. apply String.eqb_neq in Hne. rewrite Hne. reflexivity.
Qed.

Lemma subscribe_market_frames_witness :
  let self :=
    Consumer.set_ws (Some {| ws_url := "wss://ws.opinion.trade?apikey=" |})
                    example_consumer in
  let x := example_heap 1%nat in
  (Topic.outcome_type x = "categorical" ->
   Consumer._subscribe_market self (Topic.market_id x) (Topic.outcome_type x)
   = [Send (subscribe_frame "market.last.price" "rootMarketId"
                            (Topic.market_id x))])
  /\ (Topic.outcome_type x <> "categorical" ->
      Consumer._subscribe_market self (Topic.market_id x)
                                 (Topic.outcome_type x)
      = [Send (subscribe_frame "market.last.price" "marketId"
                               (Topic.market_id x));
         Send (subscribe_frame "market.depth.diff" "marketId"
                               (Topic.market_id x));
         Send (subscribe_frame "market.last.trade" "marketId"
                               (Topic.market_id x))]).
Proof.
  apply (subscribe_market_frames
           (Consumer.set_ws
              (Some {| ws_url := "wss://ws.opinion.trade?apikey=" |})
              example_consumer)
           (example_heap 1%nat)).
  simpl. discriminate.
Defined.

(** * The scenarios of the design document, evaluated *)

(** A categorical topic with [market_id = 7]: one frame, [rootMarketId: 7]. *)
Example subscribe_categorical_7 :
  Consumer._subscribe_market
    (Consumer.set_ws (Some {| ws_url := "wss://ws.opinion.trade?apikey=" |})
                     example_consumer)
    (Topic.market_id (example_heap 0%nat))
    (Topic.outcome_type (example_heap 0%nat))
  = [Send [("action", JString "SUBSCRIBE");
           ("channel", JString "market.last.price");
           ("rootMarketId", JInt 7)]].
Proof. reflexivity. Qed.

(** A binary topic with [market_id = 9]: three frames, all [marketId: 9]. *)
Example subscribe_binary_9 :
  Consumer._subscribe_market
    (Consumer.set_ws (Some {| ws_url := "wss://ws.opinion.trade?apikey=" |})
                     example_consumer)
    (Topic.market_id (example_heap 1%nat))
    (Topic.outcome_type (example_heap 1%nat))
  = [Send [("action", JString "SUBSCRIBE");
           ("channel", JString "market.last.price"); ("marketId", JInt 9)];
     Send [("action", JString "SUBSCRIBE");
           ("channel", JString "market.depth.diff"); ("marketId", JInt 9)];
     Send [("action", JString "SUBSCRIBE");
           ("channel", JString "market.last.trade"); ("marketId", JInt 9)]].
Proof. reflexivity. Qed.

(** Without a socket the guard of [_subscribe_market] returns at once. *)
Example subscribe_without_socket :
  Consumer._subscribe_market example_consumer 9 "binary" = [].
Proof. reflexivity. Qed.

(** Market 42 is stored; a last-price message with side 1 and price 0.55
    sets [yes_price] and [last_price] and leaves [no_price]. *)
Example last_price_yes_42 :
  let h' :=
    CacheService.update_from_ws_message example_cache
      (LastPrice (LastPriceMessage.mk 42 "tok" 1 "0.55" LAST_PRICE)) 200
      example_heap in
  option_map (fun topic => (Topic.yes_price (h' topic),
                            Topic.last_price (h' topic),
                            Topic.no_price (h' topic),
                            Topic.updated_at (h' topic)))
             (CacheService.get_topic example_cache 42)
  = Some (Some "0.55", Some "0.55", Some "0.80", Some 200).
Proof. reflexivity. Qed.

(** Side 2 and price 0.40 set [no_price] alone. *)
Example last_price_no_42 :
  let h' :=
    CacheService.update_price example_cache 42 2 "0.40" 200 example_heap in
  option_map (fun topic => (Topic.yes_price (h' topic),
                            Topic.last_price (h' topic),
                            Topic.no_price (h' topic)))
             (CacheService.get_topic example_cache 42)
  = Some (Some "0.20", Some "0.10", Some "0.40").
Proof. reflexivity. Qed.

(** Five failures in a row from a new consumer sleep 5, 10, 20, 40 and 60
    seconds, and leave the delay at the cap. *)
Example five_failures :
  let failed := {| events := [on_error]; raises := true |} in
  let '(self, es) :=
    Consumer.start (Consumer.init Settings.default None None None)
                   [failed; failed; failed; failed; failed] in
  (sleeps es, Consumer._reconnect_delay self) = ([5; 10; 20; 40; 60], 60).
Proof. reflexivity. Qed.

(** A connection that opens, delivers one message and is closed: the
    heartbeat task is created last, and [start] returns with the consumer
    stopped. *)
Example opened_then_closed :
  Consumer.start (Consumer.init Settings.default None None None)
    [{| events := [on_open; on_message "m"; on_close]; raises := false |}]
  = (Consumer.mk "" "wss://ws.opinion.trade" 30
       (Some {| ws_url := "wss://ws.opinion.trade?apikey=" |}) false
       (Some heartbeat_loop_task) 5 60,
     [CreateTask subscribe_all_markets_task;
      CreateTask (handle_message_task "m");
      CreateTask heartbeat_loop_task]).
Proof. reflexivity. Qed.

(** * Further properties of the topic cache *)

Section OrderedDictLookup.

Import OrderedDict.

Lemma get_setitem (k k' : Z) (v : loc) (d : OrderedDict.t) :
  get k' (setitem k v d) = if k =? k' then Some v else get k' d.
Proof.
  induction d as [|[k0 v0] d IH]; simpl; [reflexivity|].
  destruct (Z.eqb_spec k0 k) as [->|Hne]; simpl.
  - destruct (k =? k'); reflexivity.
  - rewrite IH. destruct (Z.eqb_spec k0 k') as [->|Hne'];
      [|reflexivity].
    destruct (Z.eqb_spec k k'); [congruence|reflexivity].
Qed.

Lemma get_remove_ne (k k' : Z) (d : OrderedDict.t) :
  k <> k' -> get k' (remove k d) = get k' d.
Proof.
  intros Hne. induction d as [|[k0 v0] d IH]; simpl; [reflexivity|].
  destruct (Z.eqb_spec k0 k) as [->|Hk].
  - destruct (Z.eqb_spec k k'); [congruence|reflexivity].
  - simpl. rewrite IH. reflexivity.
Qed.

Lemma get_None (k : Z) (d : OrderedDict.t) :
  get k d = None <-> ~ In k (keys d).
Proof.
  induction d as [|[k0 v0] d IH]; simpl; [tauto|].
  destruct (Z.eqb_spec k0 k) as [->|Hne].
  - split; [discriminate|]. intros H. exfalso. apply H. left. reflexivity.
  - rewrite IH. tauto.
Qed.

Lemma get_Some_in (k : Z) (d : OrderedDict.t) (v : loc) :
  get k d = Some v -> In (k, v) d.
Proof.
  induction d as [|[k0 v0] d IH]; simpl; [discriminate|].
  destruct (Z.eqb_spec k0 k) as [->|Hne]; [intros [= ->]|]; auto.
Qed.

Lemma mem_false (k : Z) (d : OrderedDict.t) :
  mem k d = false <-> ~ In k (keys d).
Proof.
  unfold mem. rewrite <- get_None. destruct (get k d); split; congruence.
Qed.

Lemma keys_remove_incl (k k' : Z) (d : OrderedDict.t) :
  In k' (keys (remove k d)) -> In k' (keys d).
Proof.
  induction d as [|[k0 v0] d IH]; simpl; [tauto|].
  destruct (k0 =? k); simpl; tauto.
Qed.

Lemma NoDup_keys_remove (k : Z) (d : OrderedDict.t) :
  NoDup (keys d) -> NoDup (keys (remove k d)) /\ ~ In k (keys (remove k d)).
Proof.
  induction d as [|[k0 v0] d IH]; simpl; intros Hnd.
  - split; [constructor|tauto].
  - inversion Hnd as [|? ? Hnotin Hnd']; subst.
    destruct (Z.eqb_spec k0 k) as [->|Hne]; [rewrite <- list_elem_of_In; auto|].
    destruct (IH Hnd') as [IH1 IH2]. simpl. split.
    + constructor; [|exact IH1]. rewrite list_elem_of_In.
      intros Hin. apply Hnotin. rewrite list_elem_of_In.
      eapply keys_remove_incl, Hin.
    + intros [Heq|Hin]; [congruence|auto].
Qed.

Lemma setitem_absent (k : Z) (v : loc) (d : OrderedDict.t) :
  ~ In k (keys d) -> setitem k v d = (d ++ [(k, v)])%list.
Proof.
  induction d as [|[k0 v0] d IH]; simpl; intros Hnotin; [reflexivity|].
  destruct (Z.eqb_spec k0 k) as [->|Hne]; [tauto|].
  rewrite IH by tauto. reflexivity.
Qed.

Lemma keys_setitem_present (k : Z) (v : loc) (d : OrderedDict.t) :
  In k (keys d) -> keys (setitem k v d) = keys d.
Proof.
  induction d as [|[k0 v0] d IH]; simpl; [tauto|].
  destruct (Z.eqb_spec k0 k) as [->|Hne]; [reflexivity|].
  intros [Heq|Hin]; [congruence|]. simpl. rewrite IH by assumption.
  reflexivity.
Qed.

Lemma NoDup_keys_setitem (k : Z) (v : loc) (d : OrderedDict.t) :
  NoDup (keys d) -> NoDup (keys (setitem k v d)).
Proof.
  intros Hnd. destruct (in_dec Z.eq_dec k (keys d)) as [Hin|Hnotin].
  - rewrite keys_setitem_present by assumption. exact Hnd.
  - rewrite setitem_absent by assumption. unfold keys.
    rewrite map_app. simpl. apply NoDup_app. split; [exact Hnd|].
    split; [|apply NoDup_singleton].
    intros x Hx Hx'. apply list_elem_of_In in Hx.
    apply list_elem_of_singleton in Hx'. subst. auto.
Qed.

Lemma setitem_entries (k : Z) (v : loc) (d : OrderedDict.t) (kv : Z * loc) :
  In kv (setitem k v d) -> In kv d \/ kv = (k, v).
Proof.
  induction d as [|[k0 v0] d IH]; simpl; [intuition congruence|].
  destruct (Z.eqb_spec k0 k) as [->|Hne]; simpl; intuition congruence.
Qed.

Lemma remove_entries (k : Z) (d : OrderedDict.t) (kv : Z * loc) :
  In kv (remove k d) -> In kv d.
Proof.
  induction d as [|[k0 v0] d IH]; simpl; [tauto|].
  destruct (k0 =? k); simpl; tauto.
Qed.

Lemma get_app (k : Z) (d1 d2 : OrderedDict.t) :
  get k (d1 ++ d2)%list
  = match get k d1 with Some v => Some v | None => get k d2 end.
Proof.
  induction d1 as [|[k0 v0] d1 IH]; simpl; [reflexivity|].
  destruct (k0 =? k); [reflexivity|exact IH].
Qed.

Lemma get_tl (k : Z) (d : OrderedDict.t) :
  NoDup (keys d) ->
  get k (tl d) = if decide (hd_error (keys d) = Some k) then None else get k d.
Proof.
  destruct d as [|[k0 v0] d]; simpl; intros Hnd.
  - destruct (decide (None = Some k)); reflexivity.
  - inversion Hnd as [|? ? Hnotin _]; subst.
    destruct (decide (Some k0 = Some k)) as [[= ->]|Hne].
    + apply get_None. rewrite <- list_elem_of_In. exact Hnotin.
    + destruct (Z.eqb_spec k0 k); [congruence|reflexivity].
Qed.

End OrderedDictLookup.

(** The dictionary after [set_topic], on a store with distinct keys: the
    old entry of the key is dropped, the new one goes to the end, and the
    first entry is dropped when the capacity is exceeded. *)
Lemma topics_after_set_app (max_size k : Z) (topic : loc) (d : OrderedDict.t) :
  NoDup (OrderedDict.keys d) ->
  let d1 := if OrderedDict.mem k d then OrderedDict.remove k d else d in
  NoDup (OrderedDict.keys d1)
  /\ ~ In k (OrderedDict.keys d1)
  /\ NoDup (OrderedDict.keys (d1 ++ [(k, topic)])%list)
  /\ topics_after_set max_size k topic d
     = if OrderedDict.len (d1 ++ [(k, topic)])%list >? max_size
       then tl (d1 ++ [(k, topic)])%list else (d1 ++ [(k, topic)])%list.
Proof.
  intros Hnd. cbv zeta. unfold topics_after_set.
  assert (H1 : NoDup (OrderedDict.keys
                        (if OrderedDict.mem k d
                         then OrderedDict.remove k d else d))
               /\ ~ In k (OrderedDict.keys
                            (if OrderedDict.mem k d
                             then OrderedDict.remove k d else d))).
  { destruct (OrderedDict.mem k d) eqn:Hm.
    - apply NoDup_keys_remove, Hnd.
    - split; [exact Hnd|]. apply mem_false, Hm. }
  destruct H1 as [Hnd1 Hnotin].
  rewrite (setitem_absent k topic _ Hnotin).
  repeat (split; [assumption|]). split; [|reflexivity].
  rewrite <- (setitem_absent k topic _ Hnotin).
  apply NoDup_keys_setitem, Hnd1.
Qed.

(** The lookup of any key after [set_topic], on a store with distinct
    keys. *)
Lemma get_after_set (max_size k k' : Z) (topic : loc) (d : OrderedDict.t) :
  NoDup (OrderedDict.keys d) ->
  let d1 := if OrderedDict.mem k d then OrderedDict.remove k d else d in
  OrderedDict.get k' (topics_after_set max_size k topic d)
  = if (OrderedDict.len (d1 ++ [(k, topic)])%list >? max_size)
       && bool_decide (hd_error (OrderedDict.keys (d1 ++ [(k, topic)])%list)
                       = Some k')
    then None
    else if k =? k' then Some topic else OrderedDict.get k' d.
Proof.
  intros Hnd. cbv zeta.
  destruct (topics_after_set_app max_size k topic d Hnd)
    as (Hnd1 & Hnotin & Hnd2 & ->).
  set (d1 := if OrderedDict.mem k d then OrderedDict.remove k d else d) in *.
  assert (Hget : OrderedDict.get k' (d1 ++ [(k, topic)])%list
                 = if k =? k' then Some topic else OrderedDict.get k' d).
  { rewrite get_app. simpl.
    destruct (Z.eqb_spec k k') as [<-|Hne].
    - apply get_None in Hnotin. rewrite Hnotin. reflexivity.
    - assert (Hsame : OrderedDict.get k' d1 = OrderedDict.get k' d).
      { unfold d1. destruct (OrderedDict.mem k d); [|reflexivity].
        apply get_remove_ne, Hne. }
      rewrite Hsame. destruct (OrderedDict.get k' d); reflexivity. }
  destruct (OrderedDict.len (d1 ++ [(k, topic)])%list >? max_size); simpl.
  - rewrite get_tl by exact Hnd2.
    destruct (decide (hd_error (OrderedDict.keys (d1 ++ [(k, topic)])%list)
                      = Some k')) as [He|He].
    + rewrite bool_decide_eq_true_2 by exact He. reflexivity.
    + rewrite bool_decide_eq_false_2 by exact He. exact Hget.
  - exact Hget.
Qed.

Lemma set_topic_get_new
    (h : heap) (topic : loc) (self : CacheService.t) :
  NoDup (OrderedDict.keys (CacheService._topics self)) ->
  1 <= CacheService._max_size self ->
  exists self',
    CacheService.set_topic h topic self = Ok self'
    /\ CacheService.get_topic self' (Topic.market_id (h topic)) = Some topic.
Proof.
  intros Hnd Hcap. rewrite set_topic_eq. eexists. split; [reflexivity|].
  unfold CacheService.get_topic. simpl.
  rewrite get_after_set by exact Hnd. rewrite Z.eqb_refl.
  destruct (topics_after_set_app (CacheService._max_size self)
              (Topic.market_id (h topic)) topic _ Hnd)
    as (_ & Hnotin & _ & _).
  set (k := Topic.market_id (h topic)) in *.
  set (d1 := if OrderedDict.mem k (CacheService._topics self)
             then OrderedDict.remove k (CacheService._topics self)
             else CacheService._topics self) in *.
  clearbody d1. destruct d1 as [|[k0 v0] r].
  - simpl. unfold OrderedDict.len. simpl length.
    destruct (Z.gtb_spec (Z.of_nat 1) (CacheService._max_size self))
      as [Hgt|_]; [lia|reflexivity].
  - simpl in Hnotin. simpl hd_error.
    rewrite (bool_decide_eq_false_2 (Some k0 = Some k)), andb_false_r;
      [reflexivity|].
    intros [= He]. apply Hnotin. left. exact He.
Qed.

(** X1. After [set_topic] on a store with distinct keys and a capacity of at
    least 1, [get_topic] finds the topic just set under its market id. *)
Theorem set_topic_then_get_topic
    (h : heap) (topic : loc) (self : CacheService.t) :
  NoDup (OrderedDict.keys (CacheService._topics self)) ->
  1 <= CacheService._max_size self ->
  exists self',
    CacheService.set_topic h topic self = Ok self'
    /\ CacheService.get_topic self' (Topic.market_id (h topic)) = Some topic.
Proof. apply set_topic_get_new. Qed.

Lemma example_cache_keys :
  OrderedDict.keys (CacheService._topics example_cache) = [7; 9; 42].
Proof. reflexivity. Defined.

Lemma example_cache_NoDup :
  NoDup (OrderedDict.keys (CacheService._topics example_cache)).
Proof.
  rewrite example_cache_keys.
  apply (bool_decide_unpack (NoDup [7; 9; 42])). vm_compute. exact I.
Defined.

Lemma set_topic_then_get_topic_witness :
  exists self',
    CacheService.set_topic example_heap 1%nat example_cache = Ok self'
    /\ CacheService.get_topic self' (Topic.market_id (example_heap 1%nat))
       = Some 1%nat.
Proof.
  apply (set_topic_then_get_topic example_heap 1%nat example_cache).
  - exact example_cache_NoDup.
  - simpl. lia.
Defined.

(** X2. [set_topic] on a store with distinct keys that is within its
    capacity leaves every other market as it was, except at most the oldest
    one: nothing is evicted when the market was stored already or the store
    is not full; otherwise the first key of the store is the one evicted,
    and only that one. *)
Theorem set_topic_keeps_other_entries
    (h : heap) (topic : loc) (self : CacheService.t) (k' : Z) :
  NoDup (OrderedDict.keys (CacheService._topics self)) ->
  CacheService.get_topic_count self <= CacheService._max_size self ->
  k' <> Topic.market_id (h topic) ->
  exists self',
    CacheService.set_topic h topic self = Ok self'
    /\ (CacheService.get_topic self (Topic.market_id (h topic)) <> None
        \/ CacheService.get_topic_count self < CacheService._max_size self ->
        CacheService.get_topic self' k' = CacheService.get_topic self k')
    /\ (hd_error (OrderedDict.keys (CacheService._topics self)) <> Some k' ->
        CacheService.get_topic self' k' = CacheService.get_topic self k')
    /\ (CacheService.get_topic self (Topic.market_id (h topic)) = None ->
        CacheService.get_topic_count self = CacheService._max_size self ->
        hd_error (OrderedDict.keys (CacheService._topics self)) = Some k' ->
        CacheService.get_topic self' k' = None).
Proof.
  intros Hnd Hcount Hne. rewrite set_topic_eq. eexists.
  split; [reflexivity|].
  unfold CacheService.get_topic, CacheService.get_topic_count in *. simpl.
  rewrite get_after_set by exact Hnd.
  set (k := Topic.market_id (h topic)) in *.
  set (d := CacheService._topics self) in *.
  destruct (Z.eqb_spec k k') as [Heq|_]; [congruence|].
  unfold OrderedDict.len in *. rewrite length_app. simpl length.
  destruct (OrderedDict.mem k d) eqn:Hmem.
  - (* the market was stored: same length, nothing evicted *)
    pose proof (length_remove k d Hmem) as Hlen.
    destruct (Z.gtb_spec (Z.of_nat (length (OrderedDict.remove k d) + 1))
                         (CacheService._max_size self)) as [Hgt|_]; [lia|].
    simpl. split; [reflexivity|]. split; [reflexivity|].
    unfold OrderedDict.mem in Hmem. intros Hnone. rewrite Hnone in Hmem.
    discriminate.
  - (* a new market: appended, and the first key goes if the store is full *)
    assert (Hhd : hd_error (OrderedDict.keys (d ++ [(k, topic)])%list) = Some k'
                  <-> hd_error (OrderedDict.keys d) = Some k').
    { destruct d as [|[k0 v0] d0]; simpl; [|tauto].
      split; [intros [= He]; congruence|discriminate]. }
    destruct (Z.gtb_spec (Z.of_nat (length d + 1))
                         (CacheService._max_size self)) as [Hgt|Hle]; simpl.
    + split; [|split].
      * intros [Hstored|Hroom]; [|lia].
        unfold OrderedDict.mem in Hmem.
        destruct (OrderedDict.get k d); [discriminate|congruence].
      * intros Hfirst. rewrite bool_decide_eq_false_2; [reflexivity|].
        rewrite Hhd. exact Hfirst.
      * intros _ _ Hfirst. rewrite bool_decide_eq_true_2; [reflexivity|].
        rewrite Hhd. exact Hfirst.
    + split; [reflexivity|]. split; [reflexivity|]. intros _ Hfull. lia.
Qed.

Lemma set_topic_keeps_other_entries_witness :
  exists self',
    CacheService.set_topic example_heap 1%nat example_cache = Ok self'
    /\ (CacheService.get_topic example_cache
          (Topic.market_id (example_heap 1%nat)) <> None
        \/ CacheService.get_topic_count example_cache
           < CacheService._max_size example_cache ->
        CacheService.get_topic self' 42 = CacheService.get_topic example_cache 42)
    /\ (hd_error (OrderedDict.keys (CacheService._topics example_cache))
        <> Some 42 ->
        CacheService.get_topic self' 42 = CacheService.get_topic example_cache 42)
    /\ (CacheService.get_topic example_cache
          (Topic.market_id (example_heap 1%nat)) = None ->
        CacheService.get_topic_count example_cache
        = CacheService._max_size example_cache ->
        hd_error (OrderedDict.keys (CacheService._topics example_cache))
        = Some 42 ->
        CacheService.get_topic self' 42 = None).
Proof.
  apply (set_topic_keeps_other_entries example_heap 1%nat example_cache 42).
  - exact example_cache_NoDup.
  - vm_compute. discriminate.
  - simpl. lia.
Defined.

(** X3. On a store with distinct keys that is within its capacity,
    [set_topic] leaves the count as it is when the market was stored, and
    otherwise adds one, up to the capacity. *)
Theorem set_topic_count
    (h : heap) (topic : loc) (self : CacheService.t) :
  NoDup (OrderedDict.keys (CacheService._topics self)) ->
  CacheService.get_topic_count self <= CacheService._max_size self ->
  exists self',
    CacheService.set_topic h topic self = Ok self'
    /\ CacheService.get_topic_count self'
       = match CacheService.get_topic self (Topic.market_id (h topic)) with
         | Some _ => CacheService.get_topic_count self
         | None => Z.min (CacheService.get_topic_count self + 1)
                         (CacheService._max_size self)
         end.
Proof.
  intros Hnd Hcount. rewrite set_topic_eq. eexists. split; [reflexivity|].
  unfold CacheService.get_topic, CacheService.get_topic_count in *. simpl.
  destruct (topics_after_set_app (CacheService._max_size self)
              (Topic.market_id (h topic)) topic _ Hnd) as (_ & _ & _ & ->).
  set (k := Topic.market_id (h topic)) in *.
  set (d := CacheService._topics self) in *.
  unfold OrderedDict.len in *. unfold OrderedDict.mem.
  destruct (OrderedDict.get k d) as [v|] eqn:Hget.
  - assert (Hmem : OrderedDict.mem k d = true)
      by (unfold OrderedDict.mem; rewrite Hget; reflexivity).
    pose proof (length_remove k d Hmem) as Hlen.
    rewrite length_app. simpl length.
    destruct (Z.gtb_spec (Z.of_nat (length (OrderedDict.remove k d) + 1))
                         (CacheService._max_size self)) as [Hgt|_]; [lia|].
    rewrite length_app. simpl. lia.
  - rewrite length_app. simpl length.
    destruct (Z.gtb_spec (Z.of_nat (length d + 1))
                         (CacheService._max_size self)) as [Hgt|Hle].
    + destruct d as [|kv d0]; simpl in *; [lia|].
      rewrite length_app. simpl. lia.
    + rewrite length_app. simpl. lia.
Qed.

Lemma set_topic_count_witness :
  exists self',
    CacheService.set_topic example_heap 1%nat example_cache = Ok self'
    /\ CacheService.get_topic_count self'
       = match CacheService.get_topic example_cache
                 (Topic.market_id (example_heap 1%nat)) with
         | Some _ => CacheService.get_topic_count example_cache
         | None => Z.min (CacheService.get_topic_count example_cache + 1)
                         (CacheService._max_size example_cache)
         end.
Proof.
  apply (set_topic_count example_heap 1%nat example_cache).
  - exact example_cache_NoDup.
  - vm_compute. discriminate.
Defined.

(** ** The store invariant *)

Lemma in_tl {A : Type} (x : A) (l : list A) : In x (tl l) -> In x l.
Proof. destruct l; simpl; auto. Qed.

Lemma NoDup_keys_tl (d : OrderedDict.t) :
  NoDup (OrderedDict.keys d) -> NoDup (OrderedDict.keys (tl d)).
Proof.
  destruct d as [|kv d]; simpl; [auto|]. intros H. inversion H; assumption.
Qed.

Lemma store_ok_set_topic (h : heap) (topic : loc) (self : CacheService.t) :
  store_ok h self ->
  store_ok h
    (CacheService.mk
       (topics_after_set (CacheService._max_size self)
          (Topic.market_id (h topic)) topic (CacheService._topics self))
       (CacheService._max_size self)
       (CacheService._update_search_index h topic
          (CacheService._search_index self))).
Proof.
  intros [Hnd Hkeyed]. unfold store_ok. simpl.
  destruct (topics_after_set_app (CacheService._max_size self)
              (Topic.market_id (h topic)) topic _ Hnd)
    as (_ & _ & Hnd2 & ->).
  set (k := Topic.market_id (h topic)) in *.
  set (d := CacheService._topics self) in *.
  assert (Hkeyed2 : Forall (fun kv : Z * loc =>
                              Topic.market_id (h (snd kv)) = fst kv)
                      ((if OrderedDict.mem k d
                        then OrderedDict.remove k d else d) ++ [(k, topic)])%list).
  { apply List.Forall_forall. intros kv Hin. apply in_app_iff in Hin.
    rewrite List.Forall_forall in Hkeyed. destruct Hin as [Hin|[<-|[]]].
    - apply Hkeyed. destruct (OrderedDict.mem k d); [|exact Hin].
      eapply remove_entries, Hin.
    - reflexivity. }
  destruct (OrderedDict.len _ >? _).
  - split; [apply NoDup_keys_tl, Hnd2|].
    apply List.Forall_forall. intros kv Hin.
    rewrite List.Forall_forall in Hkeyed2. apply Hkeyed2, in_tl, Hin.
  - split; assumption.
Qed.

Lemma store_ok_initialize (h : heap) (topics : list loc) :
  forall self : CacheService.t,
    store_ok h self ->
    store_ok h (CacheService.initialize_topics h topics self).
Proof.
  induction topics as [|topic rest IH]; intros self Hok; [exact Hok|].
  simpl. apply IH. destruct Hok as [Hnd Hkeyed]. split; simpl.
  - apply NoDup_keys_setitem, Hnd.
  - apply List.Forall_forall. intros kv Hin.
    rewrite List.Forall_forall in Hkeyed.
    destruct (setitem_entries _ _ _ _ Hin) as [Hold| ->]; [auto|reflexivity].
Qed.

Lemma assign_prices_market_id (topic l : loc) (side : Z) (price : string)
    (h : heap) :
  Topic.market_id (CacheService.assign_prices topic side price h l)
  = Topic.market_id (h l).
Proof.
  unfold CacheService.assign_prices, mutate.
  destruct (side =? 1); [|destruct (side =? 2)];
    destruct (decide (l = topic)); reflexivity.
Qed.

Lemma update_price_market_id (self : CacheService.t) (market_id side : Z)
    (price : string) (now : datetime) (h : heap) (l : loc) :
  Topic.market_id (CacheService.update_price self market_id side price now h l)
  = Topic.market_id (h l).
Proof.
  unfold CacheService.update_price.
  destruct (OrderedDict.get market_id (CacheService._topics self))
    as [topic|]; [|reflexivity].
  unfold mutate at 1. destruct (decide (l = topic)); simpl;
    apply assign_prices_market_id.
Qed.

Lemma update_from_ws_message_market_id (self : CacheService.t)
    (message : ws_message) (now : datetime) (h : heap) (l : loc) :
  Topic.market_id (CacheService.update_from_ws_message self message now h l)
  = Topic.market_id (h l).
Proof.
  unfold CacheService.update_from_ws_message.
  destruct (OrderedDict.get _ (CacheService._topics self)) as [topic|];
    [|reflexivity].
  destruct message; rewrite ?assign_prices_market_id; unfold mutate;
    destruct (decide (l = topic)); reflexivity.
Qed.

Lemma store_ok_heap (h h' : heap) (self : CacheService.t) :
  (forall l, Topic.market_id (h' l) = Topic.market_id (h l)) ->
  store_ok h self -> store_ok h' self.
Proof.
  intros Hsame [Hnd Hkeyed]. split; [exact Hnd|].
  eapply List.Forall_impl; [|exact Hkeyed].
  intros kv Hkv. simpl. rewrite Hsame. exact Hkv.
Qed.

Lemma run_call_store_ok (c : call) (h : heap) (self : CacheService.t) :
  store_ok h self ->
  exists h' self',
    run_call c h self = Ok (h', self')
    /\ store_ok h' self'
    /\ CacheService._max_size self' = CacheService._max_size self
    /\ (forall l, Topic.market_id (h' l) = Topic.market_id (h l)).
Proof.
  intros Hok. destruct c as [topics|[topic|k side price now|message now]];
    simpl.
  - eexists _, _. split; [reflexivity|].
    split; [apply store_ok_initialize, Hok|]. split; [|reflexivity].
    clear Hok. revert self.
    induction topics as [|t r IH]; intros self; [reflexivity|].
    simpl. rewrite IH. reflexivity.
  - rewrite set_topic_eq. simpl. eexists _, _. split; [reflexivity|].
    split; [apply store_ok_set_topic, Hok|]. split; reflexivity.
  - eexists _, _. split; [reflexivity|].
    assert (Hsame := update_price_market_id self k side price now h).
    split; [eapply store_ok_heap; eassumption|]. split; [reflexivity|].
    exact Hsame.
  - eexists _, _. split; [reflexivity|].
    assert (Hsame := update_from_ws_message_market_id self message now h).
    split; [eapply store_ok_heap; eassumption|]. split; [reflexivity|].
    exact Hsame.
Qed.

Lemma run_calls_store_ok (cs : list call) :
  forall (h : heap) (self : CacheService.t),
    store_ok h self ->
    exists h' self',
      run_calls cs h self = Ok (h', self')
      /\ store_ok h' self'
      /\ CacheService._max_size self' = CacheService._max_size self
      /\ (forall l, Topic.market_id (h' l) = Topic.market_id (h l)).
Proof.
  induction cs as [|c rest IH]; intros h self Hok.
  - exists h, self. simpl. auto.
  - simpl. destruct (run_call_store_ok c h self Hok)
      as (h1 & self1 & -> & Hok1 & Hmax1 & Hid1).
    destruct (IH h1 self1 Hok1) as (h2 & self2 & Hrun & Hok2 & Hmax2 & Hid2).
    exists h2, self2. split; [exact Hrun|]. split; [exact Hok2|].
    split; [congruence|]. intros l. rewrite Hid2. apply Hid1.
Qed.

(** X4. Whatever sequence of bulk loads, [set_topic], [update_price] and
    [update_from_ws_message] calls is made on a new store, no call raises,
    the keys of the store stay pairwise distinct, no object changes its
    [market_id], and [get_topic] on a key returns only an object whose
    [market_id] is that key. *)
Theorem store_keys_unique_and_faithful
    (settings : Settings.t) (max_size : Z) (cs : list call) (h : heap) :
  exists h' self',
    run_calls cs h (CacheService.init settings max_size) = Ok (h', self')
    /\ NoDup (OrderedDict.keys (CacheService._topics self'))
    /\ (forall l, Topic.market_id (h' l) = Topic.market_id (h l))
    /\ (forall k l, CacheService.get_topic self' k = Some l ->
                    Topic.market_id (h' l) = k).
Proof.
  destruct (run_calls_store_ok cs h (CacheService.init settings max_size))
    as (h' & self' & Hrun & [Hnd Hkeyed] & _ & Hid).
  { split; simpl; constructor. }
  exists h', self'. split; [exact Hrun|]. split; [exact Hnd|].
  split; [exact Hid|]. intros k l Hget.
  apply get_Some_in in Hget. rewrite List.Forall_forall in Hkeyed.
  apply (Hkeyed _ Hget).
Qed.

(** ** The bulk load *)

Lemma find_snoc {A : Type} (p : A -> bool) (l : list A) (x : A) :
  List.find p (l ++ [x])
  = match List.find p l with
    | Some y => Some y
    | None => if p x then Some x else None
    end.
Proof.
  induction l as [|a l IH]; simpl; [reflexivity|].
  destruct (p a); [reflexivity|exact IH].
Qed.

(** X5. After [initialize_topics], [get_topic] on a market id returns the
    last topic of the list that has this id; when no topic of the list has
    it, it returns what the store held before. Nothing is evicted. *)
Theorem initialize_topics_lookup (h : heap) (topics : list loc) :
  forall (self : CacheService.t) (k : Z),
    CacheService.get_topic (CacheService.initialize_topics h topics self) k
    = match List.find (fun t => Topic.market_id (h t) =? k) (rev topics) with
      | Some t => Some t
      | None => CacheService.get_topic self k
      end.
Proof.
  induction topics as [|topic rest IH]; intros self k; [reflexivity|].
  simpl CacheService.initialize_topics. rewrite IH. simpl rev.
  rewrite find_snoc.
  destruct (List.find _ (rev rest)); [reflexivity|].
  unfold CacheService.get_topic. simpl. rewrite get_setitem.
  destruct (Topic.market_id (h topic) =? k); reflexivity.
Qed.

(** ** The search index *)

Section SearchIndex.

Variable market_id : Z.

(** The body of the loop [for word in words] of [_update_search_index]. *)
Let index_step (word : string) (index : gmap string (gset Z))
    : gmap string (gset Z) :=
  let index :=
    match index !! word with
    | None => <[word := ∅]> index
    | Some _ => index
    end in
  <[word := default ∅ (index !! word) ∪ {[market_id]}]> index.

Lemma index_step_lookup (word w : string) (index : gmap string (gset Z)) :
  index_step word index !! w
  = if decide (w = word)
    then Some (index_ids index word ∪ {[market_id]})
    else index !! w.
Proof.
  unfold index_step, index_ids.
  destruct (decide (w = word)) as [->|Hne].
  - rewrite lookup_insert_eq.
    destruct (index !! word) eqn:Hl; [rewrite Hl; reflexivity|].
    rewrite lookup_insert_eq. reflexivity.
  - rewrite lookup_insert_ne by congruence.
    destruct (index !! word); [reflexivity|].
    rewrite lookup_insert_ne by congruence. reflexivity.
Qed.

Lemma index_fold_lookup (ws : list string) (w : string)
    (index : gmap string (gset Z)) :
  foldr index_step index ws !! w
  = if decide (w ∈ ws)
    then Some (index_ids index w ∪ {[market_id]})
    else index !! w.
Proof.
  induction ws as [|a ws IH]; simpl.
  - destruct (decide (w ∈ [])) as [Hin|_]; [|reflexivity].
    apply elem_of_nil in Hin. destruct Hin.
  - rewrite index_step_lookup.
    destruct (decide (w = a)) as [->|Hne].
    + rewrite (decide_True (P := a ∈ a :: ws)) by apply list_elem_of_here.
      f_equal. unfold index_ids at 1. rewrite IH.
      destruct (decide (a ∈ ws)); simpl; [|reflexivity].
      rewrite <- (assoc_L (∪)), (idemp_L (∪)). reflexivity.
    + rewrite IH. destruct (decide (w ∈ ws)) as [Hin|Hnotin].
      * rewrite decide_True by (apply list_elem_of_further, Hin).
        reflexivity.
      * rewrite decide_False; [reflexivity|].
        rewrite elem_of_cons. tauto.
Qed.

End SearchIndex.

Lemma split_lower_falsy (d : string) :
  Str.truthy d = false -> Str.split (Str.lower d) = [].
Proof. destruct d; [reflexivity|discriminate]. Qed.

Lemma elem_of_fold_words (cats : list string) :
  forall (ws : gset string) (w : string),
    w ∈ fold_left (fun ws category => ws ∪ CacheService.words_of category)
                  cats ws
    <-> w ∈ ws \/ In w (flat_map (fun c => Str.split (Str.lower c)) cats).
Proof.
  induction cats as [|c cats IH]; intros ws w; simpl; [tauto|].
  rewrite IH, in_app_iff, elem_of_union. unfold CacheService.words_of.
  rewrite elem_of_list_to_set, list_elem_of_In. tauto.
Qed.

(** The index after [_update_search_index]: the market id is added under
    every word of the topic, and nothing else changes. *)
Lemma update_search_index_lookup (h : heap) (topic : loc)
    (index : gmap string (gset Z)) (w : string) :
  (In w (topic_words (h topic)) ->
   CacheService._update_search_index h topic index !! w
   = Some (index_ids index w ∪ {[Topic.market_id (h topic)]}))
  /\ (~ In w (topic_words (h topic)) ->
      CacheService._update_search_index h topic index !! w = index !! w).
Proof.
  unfold CacheService._update_search_index, set_fold. simpl.
  match goal with
  | |- context [foldr ?f index (elements ?ws)] =>
      set (words := ws);
      pose proof (index_fold_lookup (Topic.market_id (h topic))
                    (elements words) w index) as Hfold
  end.
  cbv zeta in Hfold.
  assert (Hwords : w ∈ elements words <-> In w (topic_words (h topic))).
  { rewrite elem_of_elements. unfold words, topic_words.
    rewrite elem_of_fold_words, !in_app_iff.
    assert (Hd : w ∈ (match Topic.description (h topic) with
                      | Some d =>
                          if Str.truthy d
                          then CacheService.words_of (Topic.question (h topic))
                               ∪ CacheService.words_of d
                          else CacheService.words_of (Topic.question (h topic))
                      | None => CacheService.words_of (Topic.question (h topic))
                      end)
                 <-> In w (Str.split (Str.lower (Topic.question (h topic))))
                     \/ In w (match Topic.description (h topic) with
                              | Some d => Str.split (Str.lower d)
                              | None => []
                              end)).
    { unfold CacheService.words_of.
      destruct (Topic.description (h topic)) as [d|].
      - destruct (Str.truthy d) eqn:Ht.
        + rewrite elem_of_union, !elem_of_list_to_set, !list_elem_of_In.
          tauto.
        + rewrite (split_lower_falsy d Ht), elem_of_list_to_set,
            list_elem_of_In. simpl. tauto.
      - rewrite elem_of_list_to_set, list_elem_of_In. simpl. tauto. }
    rewrite Hd. tauto. }
  split; intros Hw.
  - rewrite Hfold, decide_True by (apply Hwords, Hw). reflexivity.
  - rewrite Hfold, decide_False; [reflexivity|]. rewrite Hwords. exact Hw.
Qed.

Lemma update_search_index_ids (h : heap) (topic : loc)
    (index : gmap string (gset Z)) (w : string) (id : Z) :
  id ∈ index_ids (CacheService._update_search_index h topic index) w
  <-> id ∈ index_ids index w
      \/ (id = Topic.market_id (h topic) /\ In w (topic_words (h topic))).
Proof.
  destruct (update_search_index_lookup h topic index w) as [Hin Hout].
  unfold index_ids at 1.
  destruct (in_dec String.string_dec w (topic_words (h topic))) as [Hw|Hw].
  - rewrite (Hin Hw). simpl. rewrite elem_of_union, elem_of_singleton. tauto.
  - rewrite (Hout Hw). fold (index_ids index w). tauto.
Qed.

(** X6. [set_topic] lists the market id in the index under every word of
    the topic's question, description and categories (lower-cased, split at
    whitespace), adds nothing else, and removes nothing: the ids listed
    before are still listed, also when the call evicts a topic. *)
Theorem set_topic_indexes_words
    (h : heap) (topic : loc) (self : CacheService.t) :
  exists self',
    CacheService.set_topic h topic self = Ok self'
    /\ (forall w, In w (topic_words (h topic)) ->
          Topic.market_id (h topic)
          ∈ index_ids (CacheService._search_index self') w)
    /\ (forall w id,
          id ∈ index_ids (CacheService._search_index self) w ->
          id ∈ index_ids (CacheService._search_index self') w)
    /\ (forall w id,
          id ∈ index_ids (CacheService._search_index self') w ->
          id ∈ index_ids (CacheService._search_index self) w
          \/ (id = Topic.market_id (h topic)
              /\ In w (topic_words (h topic)))).
Proof.
  rewrite set_topic_eq. eexists. split; [reflexivity|]. simpl.
  split; [|split]; intros w; intros;
    rewrite ?update_search_index_ids in *; auto.
Qed.

Lemma initialize_topics_index_grows (h : heap) (topics : list loc) :
  forall (self : CacheService.t) (w : string) (id : Z),
    id ∈ index_ids (CacheService._search_index self) w ->
    id ∈ index_ids
           (CacheService._search_index
              (CacheService.initialize_topics h topics self)) w.
Proof.
  induction topics as [|topic rest IH]; intros self w id Hid; [exact Hid|].
  simpl. apply IH. simpl. apply update_search_index_ids. left. exact Hid.
Qed.

(** X7. The index only grows: whatever calls are made on the store, every
    market id listed under a word stays listed under it, so the ids of
    topics that have been evicted or replaced remain in the index. *)
Theorem search_index_only_grows (cs : list call) :
  forall (h : heap) (self : CacheService.t),
  exists h' self',
    run_calls cs h self = Ok (h', self')
    /\ forall w id,
         id ∈ index_ids (CacheService._search_index self) w ->
         id ∈ index_ids (CacheService._search_index self') w.
Proof.
  induction cs as [|c rest IH]; intros h self.
  - exists h, self. split; [reflexivity|auto].
  - assert (Hstep : exists h1 self1,
              run_call c h self = Ok (h1, self1)
              /\ forall w id,
                   id ∈ index_ids (CacheService._search_index self) w ->
                   id ∈ index_ids (CacheService._search_index self1) w).
    { destruct c as [topics|[topic|k side price now|message now]]; simpl.
      - eexists _, _. split; [reflexivity|].
        apply initialize_topics_index_grows.
      - rewrite set_topic_eq. simpl. eexists _, _. split; [reflexivity|].
        simpl. intros w id Hid. apply update_search_index_ids. left.
        exact Hid.
      - eexists _, _. split; [reflexivity|auto].
      - eexists _, _. split; [reflexivity|auto]. }
    destruct Hstep as (h1 & self1 & Hrun1 & Hgrow1).
    destruct (IH h1 self1) as (h2 & self2 & Hrun2 & Hgrow2).
    exists h2, self2. simpl. rewrite Hrun1. split; [exact Hrun2|].
    intros w id Hid. apply Hgrow2, Hgrow1, Hid.
Qed.

(** ** Composition of the updates *)

(** X8. Applying the same price update twice, at the same time, is applying
    it once. *)
Theorem update_price_idempotent
    (self : CacheService.t) (market_id outcome_side : Z) (price : string)
    (now : datetime) (h : heap) (l : loc) :
  CacheService.update_price self market_id outcome_side price now
    (CacheService.update_price self market_id outcome_side price now h) l
  = CacheService.update_price self market_id outcome_side price now h l.
Proof.
  unfold CacheService.update_price, CacheService.assign_prices.
  destruct (OrderedDict.get market_id (CacheService._topics self))
    as [topic|]; [|reflexivity].
  unfold mutate.
  destruct (outcome_side =? 1); [|destruct (outcome_side =? 2)];
    destruct (decide (l = topic)); reflexivity.
Qed.

(** X9. Two price updates give the same values in either order when they
    are for markets stored in different objects (or one of them is not
    stored). When their sides differ, the two orders agree on every
    attribute except [updated_at], and on that one too if both calls carry
    the same time. When both calls assign the same stored object,
    [updated_at] is the time of the call made last. *)
Theorem update_price_commutes
    (self : CacheService.t) (k1 s1 : Z) (p1 : string) (now1 : datetime)
    (k2 s2 : Z) (p2 : string) (now2 : datetime) (h : heap) (l : loc) :
  let a :=
    CacheService.update_price self k1 s1 p1 now1
      (CacheService.update_price self k2 s2 p2 now2 h) in
  let b :=
    CacheService.update_price self k2 s2 p2 now2
      (CacheService.update_price self k1 s1 p1 now1 h) in
  (CacheService.get_topic self k1 <> CacheService.get_topic self k2 ->
   a l = b l)
  /\ (s1 <> s2 ->
      Topic.set_updated_at None (a l) = Topic.set_updated_at None (b l))
  /\ (s1 <> s2 -> now1 = now2 -> a l = b l)
  /\ (CacheService.get_topic self k1 = Some l ->
      CacheService.get_topic self k2 = Some l ->
      Topic.updated_at (a l) = Some now1
      /\ Topic.updated_at (b l) = Some now2).
Proof.
  cbv zeta.
  unfold CacheService.get_topic, CacheService.update_price,
    CacheService.assign_prices.
  destruct (OrderedDict.get k1 (CacheService._topics self)) as [t1|];
    destruct (OrderedDict.get k2 (CacheService._topics self)) as [t2|];
    unfold mutate.
  - split; [|split; [|split]].
    + intros Hobj. assert (t1 <> t2) by congruence.
      destruct (s1 =? 1); [|destruct (s1 =? 2)];
        (destruct (s2 =? 1); [|destruct (s2 =? 2)]);
        destruct (decide (l = t1)); destruct (decide (l = t2));
        try reflexivity; congruence.
    + intros Hside.
      destruct (Z.eqb_spec s1 1); [|destruct (Z.eqb_spec s1 2)];
        (destruct (Z.eqb_spec s2 1); [|destruct (Z.eqb_spec s2 2)]);
        try congruence;
        destruct (decide (l = t1)); destruct (decide (l = t2));
        try reflexivity; destruct (h l); reflexivity.
    + intros Hside ->.
      destruct (Z.eqb_spec s1 1); [|destruct (Z.eqb_spec s1 2)];
        (destruct (Z.eqb_spec s2 1); [|destruct (Z.eqb_spec s2 2)]);
        try congruence;
        destruct (decide (l = t1)); destruct (decide (l = t2));
        try reflexivity; destruct (h l); reflexivity.
    + intros [= ->] [= ->].
      destruct (s1 =? 1); [|destruct (s1 =? 2)];
        (destruct (s2 =? 1); [|destruct (s2 =? 2)]);
        destruct (decide (l = l)); try congruence; split; reflexivity.
  - split; [|split; [|split]]; try reflexivity; discriminate.
  - split; [|split; [|split]]; try reflexivity; discriminate.
  - split; [|split; [|split]]; try reflexivity; discriminate.
Qed.

(** ** [search] with a limit below 1 *)

Lemma search_loop_nonpositive (h : heap) (q : string) (limit : Z)
    (values : list loc) (visited : nat) :
  limit <= 0 ->
  fst (CacheService.search_loop h q limit values [] visited)
  = take 1 (List.filter
              (fun topic => CacheService.search_match q (h topic)) values).
Proof.
  intros Hlimit. revert visited.
  induction values as [|topic rest IH]; intros visited; simpl; [reflexivity|].
  destruct (CacheService.search_match q (h topic)).
  - simpl.
    destruct (Z.geb_spec (Z.of_nat 1) limit) as [_|Hlt]; [|lia].
    simpl. rewrite take_0. reflexivity.
  - apply IH.
Qed.

(** X10. With a limit of 0 or less, [search] returns the first matching
    topic of the store alone, or nothing when no topic matches: the limit
    is tested only after a match has been appended. *)
Theorem search_nonpositive_limit
    (self : CacheService.t) (h : heap) (keyword : string) (limit : Z) :
  limit <= 0 ->
  CacheService.search self h keyword limit
  = take 1 (List.filter
              (fun topic => spec_keyword_matches keyword (h topic))
              (CacheService.get_all_topics self)).
Proof.
  intros Hlimit. unfold CacheService.search.
  rewrite search_loop_nonpositive by exact Hlimit. f_equal.
  apply List.filter_ext. intros topic. apply search_match_spec.
Qed.

Lemma search_nonpositive_limit_witness :
  CacheService.search example_cache example_heap "election" (-3)
  = take 1 (List.filter
              (fun topic =>
                 spec_keyword_matches "election" (example_heap topic))
              (CacheService.get_all_topics example_cache)).
Proof.
  apply (search_nonpositive_limit example_cache example_heap "election" (-3)).
  lia.
Defined.

(** * Further properties of the websocket consumer *)

Lemma connect_with_retry_cons (self : Consumer.t) (tr : transport)
    (rest : list transport) :
  Consumer._connect_with_retry self (tr :: rest)
  = if Consumer._running self then
      let '(self1, e1, raised) := Consumer._connect self tr in
      if raised then
        if Consumer._running self1 then
          let '(self2, e3) :=
            Consumer._connect_with_retry
              (Consumer.set_reconnect_delay
                 (Z.min (Consumer._reconnect_delay self1 * 2)
                        (Consumer._max_reconnect_delay self1)) self1) rest in
          (self2,
           (e1 ++ [Sleep (Consumer._reconnect_delay self1)] ++ e3)%list)
        else
          let '(self2, e3) := Consumer._connect_with_retry self1 rest in
          (self2, (e1 ++ e3)%list)
      else
        let '(self2, e3) :=
          Consumer._connect_with_retry
            (Consumer.set_reconnect_delay 5 self1) rest in
        (self2, (e1 ++ e3)%list)
    else (self, []).
Proof. reflexivity. Qed.

Lemma connect_with_retry_stopped (self : Consumer.t)
    (attempts : list transport) :
  Consumer._running self = false ->
  Consumer._connect_with_retry self attempts = (self, []).
Proof.
  intros Hstop. destruct attempts as [|tr rest]; [reflexivity|].
  rewrite connect_with_retry_cons, Hstop. reflexivity.
Qed.

(** X11. After [stop] the consumer reports that it is not connected and the
    health check says degraded; the retry loop makes no further attempt
    whatever the transport would do, a heartbeat loop that tests the
    consumer sends nothing, and a second [stop] changes nothing. [stop]
    closes the socket when there is one and cancels and awaits the
    heartbeat task when there is one. *)
Theorem stop_halts_the_consumer
    (self : Consumer.t) (cache : CacheService.t)
    (attempts : list transport) (send_raises : bool)
    (later : list (Consumer.t * bool)) :
  let self' := fst (stop self) in
  Consumer.is_connected self' = false
  /\ connected (get_status self') = false
  /\ health (health_check self' cache) = "degraded"
  /\ Consumer._connect_with_retry self' attempts = (self', [])
  /\ Consumer._heartbeat_loop ((self', send_raises) :: later) = []
  /\ fst (stop self') = self'
  /\ snd (stop self)
     = ((if bool_decide (Consumer._ws self <> None)
         then [CloseSocket] else [])
        ++ (if bool_decide (Consumer._heartbeat_task self <> None)
            then [CancelHeartbeat; AwaitHeartbeat] else []))%list.
Proof.
  cbv zeta. unfold stop. simpl fst. simpl snd.
  assert (Hoff : Consumer.is_connected (Consumer.set_running false self)
                 = false).
  { unfold Consumer.is_connected. simpl. apply andb_false_r. }
  split; [exact Hoff|]. split; [exact Hoff|].
  split; [unfold health_check, get_status; simpl; rewrite Hoff; reflexivity|].
  split; [apply connect_with_retry_stopped; reflexivity|].
  split; [reflexivity|]. split; [destruct self; reflexivity|].
  simpl. destruct (Consumer._ws self); destruct (Consumer._heartbeat_task self);
    reflexivity.
Qed.

(** X12. After [_connect], whether it returned or raised, the consumer holds
    a socket object, and [is_connected] is the value the callbacks left in
    [_running]: true when the last of [on_open]/[on_close] was [on_open],
    or when there was none and the consumer was running. So on a started
    consumer an attempt that fails without any callback still reports
    connected, and the health check says healthy. *)
Theorem is_connected_after_connect
    (self : Consumer.t) (tr : transport) (cache : CacheService.t) :
  let self' := fst (fst (Consumer._connect self tr)) in
  Consumer._ws self' <> None
  /\ Consumer.is_connected self'
     = still_running (Consumer._running self) (events tr)
  /\ health (health_check self' cache)
     = if still_running (Consumer._running self) (events tr)
       then "healthy" else "degraded".
Proof.
  cbv zeta. unfold Consumer._connect.
  pose proof (run_forever_fields (events tr)
                (Consumer.set_ws
                   (Some {| ws_url := Consumer.url self +:+ "?apikey="
                                      +:+ Consumer.api_key self |}) self))
    as H.
  cbv zeta in H.
  destruct (Consumer.run_forever _ (events tr)) as [self1 e1]. simpl in H.
  destruct H as (Hr & _ & _ & Hw & _).
  assert (Hconn : forall c : Consumer.t,
            Consumer._ws c = Consumer._ws self1 ->
            Consumer._running c = Consumer._running self1 ->
            Consumer._ws c <> None
            /\ Consumer.is_connected c
               = still_running (Consumer._running self) (events tr)
            /\ health (health_check c cache)
               = if still_running (Consumer._running self) (events tr)
                 then "healthy" else "degraded").
  { intros c Hcw Hcr.
    assert (Hic : Consumer.is_connected c
                  = still_running (Consumer._running self) (events tr)).
    { unfold Consumer.is_connected. rewrite Hcw, Hw, Hcr, Hr. reflexivity. }
    split; [rewrite Hcw, Hw; discriminate|]. split; [exact Hic|].
    unfold health_check, get_status. simpl. rewrite Hic. reflexivity. }
  destruct (raises tr); simpl fst.
  - apply (Hconn self1); reflexivity.
  - apply (Hconn (Consumer.set_heartbeat_task (Some heartbeat_loop_task)
                                              self1)); reflexivity.
Qed.

(** X13. Whatever the attempts do, from a delay between 5 and 60 and a cap
    of 60: every delay slept lies between 5 and 60, so does the delay the
    loop ends with, and there are no more sleeps than attempts that
    raised. *)
Theorem reconnect_delay_always_bounded (attempts : list transport) :
  forall self : Consumer.t,
    5 <= Consumer._reconnect_delay self <= 60 ->
    Consumer._max_reconnect_delay self = 60 ->
    5 <= Consumer._reconnect_delay
           (fst (Consumer._connect_with_retry self attempts)) <= 60
    /\ Forall (fun s => 5 <= s <= 60)
              (sleeps (snd (Consumer._connect_with_retry self attempts)))
    /\ (length (sleeps (snd (Consumer._connect_with_retry self attempts)))
        <= length (List.filter raises attempts))%nat.
Proof.
  induction attempts as [|tr rest IH]; intros self Hdelay Hmax.
  - simpl. split; [exact Hdelay|]. split; [constructor|lia].
  - rewrite connect_with_retry_cons.
    destruct (Consumer._running self) eqn:Hrun;
      [|simpl; split; [exact Hdelay|]; split; [constructor|lia]].
    simpl List.filter. destruct (raises tr) eqn:Hraise.
    + destruct (connect_raises self tr Hraise)
        as (self1 & e1 & -> & _ & Hd1 & Hm1 & Hs1).
      destruct (Consumer._running self1).
      * destruct (IH (Consumer.set_reconnect_delay
                        (Z.min (Consumer._reconnect_delay self1 * 2)
                               (Consumer._max_reconnect_delay self1)) self1))
          as (Hfinal & Hsleeps & Hcount); simpl; try lia.
        destruct (Consumer._connect_with_retry _ rest) as [self2 e3].
        simpl in *. rewrite !sleeps_app, Hs1. simpl.
        split; [exact Hfinal|]. split; [|lia].
        constructor; [lia|exact Hsleeps].
      * destruct (IH self1) as (Hfinal & Hsleeps & Hcount); try lia.
        destruct (Consumer._connect_with_retry self1 rest) as [self2 e3].
        simpl in *. rewrite sleeps_app, Hs1. simpl.
        split; [exact Hfinal|]. split; [exact Hsleeps|lia].
    + destruct (connect_returns self tr Hraise)
        as (self1 & e1 & -> & _ & _ & Hd1 & Hm1 & Hs1).
      destruct (IH (Consumer.set_reconnect_delay 5 self1))
        as (Hfinal & Hsleeps & Hcount); simpl; try lia.
      destruct (Consumer._connect_with_retry _ rest) as [self2 e3].
      simpl in *. rewrite !sleeps_app, Hs1. simpl.
      split; [exact Hfinal|]. split; [exact Hsleeps|exact Hcount].
Qed.

Lemma reconnect_delay_always_bounded_witness :
  let attempts :=
    [{| events := [on_error]; raises := true |};
     {| events := [on_open]; raises := false |};
     {| events := [on_open; on_close]; raises := true |}] in
  5 <= Consumer._reconnect_delay
         (fst (Consumer._connect_with_retry example_consumer attempts)) <= 60
  /\ Forall (fun s => 5 <= s <= 60)
            (sleeps (snd (Consumer._connect_with_retry example_consumer
                            attempts)))
  /\ (length (sleeps (snd (Consumer._connect_with_retry example_consumer
                             attempts)))
      <= length (List.filter raises attempts))%nat.
Proof.
  apply (reconnect_delay_always_bounded
           [{| events := [on_error]; raises := true |};
            {| events := [on_open]; raises := false |};
            {| events := [on_open; on_close]; raises := true |}]
           example_consumer).
  - simpl. lia.
  - reflexivity.
Defined.

(** X14. With a socket, [_subscribe_all_markets] sends exactly the frames of
    every stored topic, topic after topic in store order (one frame for a
    categorical topic, three for any other); without a socket it sends
    nothing. *)
Theorem subscribe_all_markets_frames
    (self : Consumer.t) (cache : CacheService.t) (h : heap) :
  (Consumer._ws self <> None ->
   Consumer._subscribe_all_markets self cache h
   = map Send (flat_map (fun topic => subscriptions_for (h topic))
                        (CacheService.get_all_topics cache)))
  /\ (Consumer._ws self = None ->
      Consumer._subscribe_all_markets self cache h = []).
Proof.
  unfold Consumer._subscribe_all_markets.
  split; intros Hws; induction (CacheService.get_all_topics cache)
    as [|topic rest IH]; simpl; try reflexivity.
  - rewrite IH, map_app. f_equal.
    unfold Consumer._subscribe_market, subscriptions_for.
    destruct (Consumer._ws self); [|congruence].
    destruct (String.eqb _ "categorical"); reflexivity.
  - rewrite IH. unfold Consumer._subscribe_market. rewrite Hws. reflexivity.
Qed.

(** X15. The heartbeat loop sends one heartbeat frame, followed by a sleep
    of the interval, for every turn whose test finds the consumer running
    with a socket and whose send does not raise. It ends at the first turn
    whose test fails or whose send raises, a turn that adds neither a frame
    nor a sleep: whatever the consumer is afterwards (running again,
    reconnected), this loop sends nothing more. *)
Theorem heartbeat_loop_ends_for_good
    (pre later : list (Consumer.t * bool)) (last : Consumer.t * bool) :
  Forall (fun o : Consumer.t * bool =>
            Consumer._running (fst o) = true
            /\ Consumer._ws (fst o) <> None
            /\ snd o = false) pre ->
  Consumer._running (fst last) = false
  \/ Consumer._ws (fst last) = None
  \/ snd last = true ->
  Consumer._heartbeat_loop (pre ++ last :: later)
  = flat_map (fun o : Consumer.t * bool =>
                [Send Consumer.heartbeat_frame;
                 Sleep (Consumer.heartbeat_interval (fst o))]) pre.
Proof.
  intros Hpre Hlast.
  induction Hpre as [|[c b] pre (Hr & Hw & Hb) _ IH]; simpl.
  - destruct last as [c b]. simpl in Hlast.
    destruct Hlast as [-> |[-> | ->]]; [reflexivity| |].
    + rewrite andb_false_r. reflexivity.
    + destruct (Consumer._running c && bool_decide (Consumer._ws c <> None));
        reflexivity.
  - simpl in Hr, Hw, Hb. subst b.
    rewrite Hr, bool_decide_eq_true_2 by exact Hw. simpl. rewrite IH.
    reflexivity.
Qed.

Lemma heartbeat_loop_ends_for_good_witness :
  let up :=
    Consumer.set_ws (Some {| ws_url := "wss://ws.opinion.trade?apikey=" |})
                    example_consumer in
  Consumer._heartbeat_loop
    ([(up, false); (up, false)] ++ (up, true) :: [(up, false)])
  = flat_map (fun o : Consumer.t * bool =>
                [Send Consumer.heartbeat_frame;
                 Sleep (Consumer.heartbeat_interval (fst o))])
             [(up, false); (up, false)].
Proof.
  apply (heartbeat_loop_ends_for_good
           (let up :=
              Consumer.set_ws
                (Some {| ws_url := "wss://ws.opinion.trade?apikey=" |})
                example_consumer in [(up, false); (up, false)])
           (let up :=
              Consumer.set_ws
                (Some {| ws_url := "wss://ws.opinion.trade?apikey=" |})
                example_consumer in [(up, false)])
           (Consumer.set_ws
              (Some {| ws_url := "wss://ws.opinion.trade?apikey=" |})
              example_consumer, true)).
  - repeat constructor; discriminate.
  - right. right. reflexivity.
Defined.

(** * Properties of the topic service *)

Lemma slice_nonneg {A : Type} (l : list A) (start len : Z) :
  0 <= start -> 0 <= len ->
  TopicService.slice l start (start + len)
  = take (Z.to_nat len) (drop (Z.to_nat start) l).
Proof.
  intros Hs Hl. unfold TopicService.slice, TopicService.slice_index.
  destruct (Z.ltb_spec start 0) as [?|_]; [lia|].
  destruct (Z.ltb_spec (start + len) 0) as [?|_]; [lia|].
  destruct (Z_le_gt_dec (Z.of_nat (length l)) start) as [Hout|Hin].
  - rewrite !Z.min_r by lia. rewrite Z.sub_diag. simpl.
    rewrite (drop_ge l (Z.to_nat start)) by lia. rewrite take_nil.
    rewrite drop_ge by lia. reflexivity.
  - rewrite (Z.min_l start) by lia.
    destruct (Z_le_gt_dec (start + len) (Z.of_nat (length l))) as [Hfit|Hcut].
    + rewrite Z.min_l by lia. f_equal. lia.
    + rewrite Z.min_r by lia.
      rewrite !take_ge; [reflexivity|rewrite length_drop; lia
                        |rewrite length_drop; lia].
Qed.

(** X16. For an offset and a limit that are not negative, [_apply_pagination]
    returns the [limit] topics that follow the first [offset] ones (fewer
    at the end of the list, none beyond it): at most [limit] topics, in the
    order of the list. *)
Theorem apply_pagination_window (topics : list loc) (limit offset : Z) :
  0 <= offset -> 0 <= limit ->
  TopicService._apply_pagination topics limit offset
  = take (Z.to_nat limit) (drop (Z.to_nat offset) topics)
  /\ Z.of_nat (length (TopicService._apply_pagination topics limit offset))
     <= limit.
Proof.
  intros Ho Hl. unfold TopicService._apply_pagination.
  rewrite slice_nonneg by assumption. split; [reflexivity|].
  rewrite length_take. lia.
Qed.

Lemma apply_pagination_window_witness :
  TopicService._apply_pagination [0; 1; 2]%nat 2 1
  = take (Z.to_nat 2) (drop (Z.to_nat 1) [0; 1; 2]%nat)
  /\ Z.of_nat (length (TopicService._apply_pagination [0; 1; 2]%nat 2 1))
     <= 2.
Proof.
  apply (apply_pagination_window [0; 1; 2]%nat 2 1); lia.
Defined.

(** X17. Consecutive pages tile the list: the page of [a] topics at [offset]
    followed by the page of [b] topics at [offset + a] is the page of
    [a + b] topics at [offset]; no topic is lost or repeated between
    pages. *)
Theorem apply_pagination_pages_tile (topics : list loc) (a b offset : Z) :
  0 <= offset -> 0 <= a -> 0 <= b ->
  (TopicService._apply_pagination topics a offset
   ++ TopicService._apply_pagination topics b (offset + a))%list
  = TopicService._apply_pagination topics (a + b) offset.
Proof.
  intros Ho Ha Hb. unfold TopicService._apply_pagination.
  rewrite !slice_nonneg by lia.
  replace (Z.to_nat (offset + a)) with (Z.to_nat offset + Z.to_nat a)%nat
    by lia.
  replace (Z.to_nat (a + b)) with (Z.to_nat a + Z.to_nat b)%nat by lia.
  rewrite <- drop_drop. apply take_take_drop.
Qed.

Lemma apply_pagination_pages_tile_witness :
  (TopicService._apply_pagination [0; 1; 2; 3; 4]%nat 2 1
   ++ TopicService._apply_pagination [0; 1; 2; 3; 4]%nat 3 (1 + 2))%list
  = TopicService._apply_pagination [0; 1; 2; 3; 4]%nat (2 + 3) 1.
Proof.
  apply (apply_pagination_pages_tile [0; 1; 2; 3; 4]%nat 2 3 1); lia.
Defined.

(** X18. [get_topic_by_id] returns the first topic of the store, in store
    order, whose [id] is the one asked for, and [None] exactly when no
    stored topic has that [id]. *)
Theorem get_topic_by_id_first
    (cache : CacheService.t) (h : heap) (topic_id : string) :
  match TopicService.get_topic_by_id cache h topic_id with
  | Some l =>
      Topic.id (h l) = topic_id
      /\ exists before after,
           CacheService.get_all_topics cache = (before ++ l :: after)%list
           /\ forall x, In x before -> Topic.id (h x) <> topic_id
  | None =>
      forall x, In x (CacheService.get_all_topics cache) ->
                Topic.id (h x) <> topic_id
  end.
Proof.
  unfold TopicService.get_topic_by_id.
  induction (CacheService.get_all_topics cache) as [|x rest IH]; simpl.
  - intros x [].
  - destruct (String.eqb_spec (Topic.id (h x)) topic_id) as [Heq|Hne].
    + split; [exact Heq|]. exists [], rest. split; [reflexivity|].
      intros y [].
    + destruct (List.find _ rest) as [l|].
      * destruct IH as (Hid & before & after & -> & Hbefore).
        split; [exact Hid|]. exists (x :: before), after.
        split; [reflexivity|]. intros y [<-|Hy]; auto.
      * intros y [<-|Hy]; auto.
Qed.

Lemma in_slice {A : Type} (l : list A) (start stop : Z) (x : A) :
  In x (TopicService.slice l start stop) -> In x l.
Proof.
  unfold TopicService.slice. rewrite <- !list_elem_of_In. intros Hin.
  eapply subseteq_drop, subseteq_take, Hin.
Qed.

(** X19. [search_topics] without [fuzzy] returns stored topics whose question
    contains the query case-insensitively, whatever the limit; each of them
    is also a match of the fuzzy search. For a limit that is not negative
    they are the first [limit] such topics in store order. *)
Theorem search_topics_exact
    (cache : CacheService.t) (h : heap) (query : string) (limit : Z) :
  (forall l, In l (TopicService.search_topics cache h query limit false) ->
     In l (CacheService.get_all_topics cache)
     /\ contains_ci query (Topic.question (h l)) = true
     /\ spec_keyword_matches query (h l) = true)
  /\ (0 <= limit ->
      TopicService.search_topics cache h query limit false
      = take (Z.to_nat limit)
          (List.filter
             (fun t => contains_ci query (Topic.question (h t)))
             (CacheService.get_all_topics cache))).
Proof.
  unfold TopicService.search_topics. split.
  - intros l Hin. apply in_slice, List.filter_In in Hin.
    destruct Hin as [Hin Hq]. split; [exact Hin|].
    unfold spec_keyword_matches, contains_ci. rewrite Hq. auto.
  - intros Hl. rewrite <- (Z.add_0_l limit) at 1.
    rewrite slice_nonneg by lia. reflexivity.
Qed.

(** X20. A topic passes [_apply_filters] exactly when it is in the list and,
    for each bound that is given, has an [end_date] on the right side of
    it: a topic without [end_date] is dropped as soon as one bound is
    given. Without bounds the list is returned as it is. *)
Theorem apply_filters_membership
    (h : heap) (topics : list loc) (before after : option datetime)
    (l : loc) :
  (In l (TopicService._apply_filters h topics before after)
   <-> In l topics
       /\ (forall b, before = Some b ->
             exists d, Topic.end_date (h l) = Some d /\ d <= b)
       /\ (forall a, after = Some a ->
             exists d, Topic.end_date (h l) = Some d /\ a <= d))
  /\ TopicService._apply_filters h topics None None = topics.
Proof.
  split; [|reflexivity].
  unfold TopicService._apply_filters.
  destruct before as [b|]; destruct after as [a|];
    rewrite ?List.filter_In; split.
  - intros [[Hin Hb] Ha]. destruct (Topic.end_date (h l)) as [d|];
      [|discriminate].
    split; [exact Hin|]. split; intros ? [= <-]; exists d; split;
      try reflexivity; lia.
  - intros (Hin & Hb & Ha).
    destruct (Hb b eq_refl) as (d & Hd & Hle).
    destruct (Ha a eq_refl) as (d' & Hd' & Hge).
    rewrite Hd in *. injection Hd' as <-.
    repeat split; [exact Hin|lia|lia].
  - intros [Hin Hb]. destruct (Topic.end_date (h l)) as [d|];
      [|discriminate].
    split; [exact Hin|]. split; [|discriminate].
    intros ? [= <-]. exists d. split; [reflexivity|lia].
  - intros (Hin & Hb & _). destruct (Hb b eq_refl) as (d & Hd & Hle).
    rewrite Hd. split; [exact Hin|lia].
  - intros [Hin Ha]. destruct (Topic.end_date (h l)) as [d|];
      [|discriminate].
    split; [exact Hin|]. split; [discriminate|].
    intros ? [= <-]. exists d. split; [reflexivity|lia].
  - intros (Hin & _ & Ha). destruct (Ha a eq_refl) as (d & Hd & Hge).
    rewrite Hd. split; [exact Hin|lia].
  - intros Hin. split; [exact Hin|]. split; discriminate.
  - tauto.
Qed.

(** * End to end *)

(** X21. On a store built with a [max_size] that is not negative, under
    settings whose [cache_max_size] is at least 1 ([max_size = 0] falls
    back to it), a topic that has just been upserted is found by
    [get_topic] under its market id, whatever calls were made on the store
    before. *)
Theorem upserted_topic_is_found
    (settings : Settings.t) (max_size : Z) (cs : list call) (h : heap)
    (topic : loc) :
  0 <= max_size ->
  1 <= Settings.cache_max_size settings ->
  exists h' self' self'',
    run_calls cs h (CacheService.init settings max_size) = Ok (h', self')
    /\ CacheService.set_topic h' topic self' = Ok self''
    /\ CacheService.get_topic self'' (Topic.market_id (h' topic))
       = Some topic.
Proof.
  intros Hmax Hsettings.
  destruct (run_calls_store_ok cs h (CacheService.init settings max_size))
    as (h' & self' & Hrun & [Hnd _] & Hcap & _).
  { split; simpl; constructor. }
  destruct (set_topic_get_new h' topic self' Hnd)
    as (self'' & Hset & Hget).
  { rewrite Hcap. simpl. destruct (Z.eqb_spec max_size 0); lia. }
  exists h', self', self''. auto.
Qed.

Lemma upserted_topic_is_found_witness :
  exists h' self' self'',
    run_calls [Initialize [0; 1]%nat; Mutate (UpdatePrice 7 1 "0.5" 100)]
              example_heap (CacheService.init Settings.default 0)
    = Ok (h', self')
    /\ CacheService.set_topic h' 2%nat self' = Ok self''
    /\ CacheService.get_topic self'' (Topic.market_id (h' 2%nat))
       = Some 2%nat.
Proof.
  apply (upserted_topic_is_found Settings.default 0
           [Initialize [0; 1]%nat; Mutate (UpdatePrice 7 1 "0.5" 100)]
           example_heap 2%nat).
  - lia.
  - simpl. lia.
Defined.
